(** * ZeroSprawl alert triage handler: model and verified properties

    Shallow embedding of [lambdafunctionactiontype.py] (the function
    [lambda_handler]): the model request adapter, the two-stage response
    extractor and the per-alert pipeline driver, together with the parts of
    the Python runtime they rely on ([str] methods, [dict]/[list] access and
    [json.loads]).

    Conventions.
    - A Python [str] is a list of Unicode code points ([pystr]).
    - A Python value that can come out of [json.loads] is a [json] term;
      a [dict] is an association list in insertion order with unique keys.
    - A computation that may raise is a value of [exn + A].
    - The collaborators (clock, model invocation, table write, topic
      publish) are operations on an abstract [World], threaded explicitly.
    - The limits of the interpreter that [json.loads] and [json.dumps]
      run into (the digits of an integer, the recursion limit) are those
      of CPython 3.11 at its defaults. *)

From Stdlib Require Import List ZArith NArith String Ascii Bool Arith Lia.
Import ListNotations.

Set Implicit Arguments.
Open Scope N_scope.

(* ================================================================== *)
(** * Python strings *)
(* ================================================================== *)

Module PyStr.

(** A Python [str]: a sequence of code points. *)
Definition pystr := list N.

(** Literal of ASCII text. *)
Fixpoint py (s : string) : pystr :=
  match s with
  | EmptyString => []
  | String a r => N_of_ascii a :: py r
  end.

(** Literal of ASCII text in which an apostrophe stands for the double
    quote character (code point 34), so that JSON texts can be written
    inline. *)
Fixpoint pyq (s : string) : pystr :=
  match s with
  | EmptyString => []
  | String a r =>
      (if N.eqb (N_of_ascii a) 39 then 34%N else N_of_ascii a) :: pyq r
  end.

Arguments py : simpl never.
Arguments pyq : simpl never.

Definition c_quote : N := 34.
Definition c_backslash : N := 92.
Definition c_lbrace : N := 123.
Definition c_rbrace : N := 125.

Fixpoint str_eqb (a b : pystr) : bool :=
  match a, b with
  | [], [] => true
  | x :: a', y :: b' => N.eqb x y && str_eqb a' b'
  | _, _ => false
  end.

(** [str.isspace] on one code point (the Unicode whitespace set of
    CPython). *)
Definition isspace (c : N) : bool :=
  ((9 <=? c) && (c <=? 13)) || ((28 <=? c) && (c <=? 32))
  || (c =? 133) || (c =? 160) || (c =? 5760)
  || ((8192 <=? c) && (c <=? 8202))
  || (c =? 8232) || (c =? 8233) || (c =? 8239) || (c =? 8287)
  || (c =? 12288).

Fixpoint lstrip (s : pystr) : pystr :=
  match s with
  | [] => []
  | c :: r => if isspace c then lstrip r else s
  end.

Definition rstrip (s : pystr) : pystr := rev (lstrip (rev s)).

(** [s.strip()] *)
Definition strip (s : pystr) : pystr := rstrip (lstrip s).

(** [s.startswith(p)] *)
Fixpoint startswith (s p : pystr) {struct p} : bool :=
  match p, s with
  | [], _ => true
  | x :: p', y :: s' => N.eqb x y && startswith s' p'
  | _ :: _, [] => false
  end.

(** [s.endswith(p)] *)
Definition endswith (s p : pystr) : bool := startswith (rev s) (rev p).

(** [s.find(c)] for a one-character argument: index of the first
    occurrence, or -1. *)
Fixpoint find (s : pystr) (c : N) : Z :=
  match s with
  | [] => (-1)%Z
  | x :: r =>
      if N.eqb x c then 0%Z
      else let i := find r c in if (i <? 0)%Z then (-1)%Z else (i + 1)%Z
  end.

(** [s.rfind(c)] for a one-character argument: index of the last
    occurrence, or -1. *)
Definition rfind (s : pystr) (c : N) : Z :=
  let i := find (rev s) c in
  if (i <? 0)%Z then (-1)%Z else (Z.of_nat (List.length s) - 1 - i)%Z.

(** [s[a:b]] for indices [0 <= a], [0 <= b]. *)
Definition slice (s : pystr) (a b : Z) : pystr :=
  firstn (Z.to_nat (b - a)) (skipn (Z.to_nat a) s).

(** [sub in s] for strings. *)
Fixpoint contains (s sub : pystr) : bool :=
  startswith s sub ||
  match s with
  | [] => false
  | _ :: r => contains r sub
  end.

End PyStr.
Import PyStr.

(* ================================================================== *)
(** * JSON values and [json.loads] *)
(* ================================================================== *)

(** The Python values the handler manipulates.  A float is kept as the
    text that denotes it: the handler never computes with numbers. *)
#[warnings="-register-all"]
Inductive json : Type :=
| JNull
| JBool (b : bool)
| JInt (n : Z)
| JFloat (lexeme : pystr)
| JStr (s : pystr)
| JList (l : list json)
| JDict (d : list (pystr * json)).

Definition dict := list (pystr * json).

Module Dict.

(** [d.get(k)], [None] when the key is absent. *)
Fixpoint lookup (d : dict) (k : pystr) : option json :=
  match d with
  | [] => None
  | (k', v) :: r => if str_eqb k' k then Some v else lookup r k
  end.

(** [k in d] *)
Definition mem (d : dict) (k : pystr) : bool :=
  match lookup d k with Some _ => true | None => false end.

(** [d[k] = v]: an existing key keeps its position. *)
Fixpoint set (d : dict) (k : pystr) (v : json) : dict :=
  match d with
  | [] => [(k, v)]
  | (k', v') :: r =>
      if str_eqb k' k then (k', v) :: r else (k', v') :: set r k v
  end.

(** [dict(pairs)] *)
Definition of_pairs (l : list (pystr * json)) : dict :=
  fold_left (fun d kv => set d (fst kv) (snd kv)) l [].

Definition keys (d : dict) : list pystr := map fst d.

End Dict.

(* ================================================================== *)
(** * Exceptions *)
(* ================================================================== *)

(** The exception classes that occur (all are subclasses of
    [Exception]).  [ValueError] is the one raised at line 197;
    [ValueError_digits] is the [ValueError] that the conversion of an
    over-long integer literal raises inside [json.loads];
    [StopIteration] is what the scanner of [json] raises where it
    expects a value and finds none (the decoder catches it);
    [ExternalError] stands for whatever a collaborator raises. *)
Inductive exn : Type :=
| JSONDecodeError
| ValueError
| ValueError_digits
| RecursionError
| StopIteration
| TypeError
| AttributeError
| IndexError
| KeyError
| ExternalError (detail : pystr).

(** [isinstance(e, json.JSONDecodeError)] *)
Definition is_JSONDecodeError (e : exn) : bool :=
  match e with JSONDecodeError => true | _ => false end.

(** [isinstance(e, ValueError)]; [JSONDecodeError] derives from
    [ValueError]. *)
Definition is_ValueError (e : exn) : bool :=
  match e with
  | JSONDecodeError | ValueError | ValueError_digits => true
  | _ => false
  end.

Definition result (A : Type) : Type := (exn + A)%type.

Definition bind {A B : Type} (m : result A) (k : A -> result B) : result B :=
  match m with
  | inl e => inl e
  | inr a => k a
  end.

Declare Scope py_scope.
Delimit Scope py_scope with py.
Notation "x <- m ;; k" := (bind m (fun x => k))
  (at level 61, m at next level, right associativity) : py_scope.
Open Scope py_scope.

(** ** The decoder

    A model of CPython's [json.decoder] / [json.scanner] in its default
    configuration (strict strings, no hooks, the C scanner), as CPython
    3.11 runs it.  A scanner works on the remaining input and returns
    the value with the input left over, or the exception it raises.  Two
    limits of the interpreter bear on it, and both are parameters of the
    scanner:
    - [max_digits]: the conversion of an integer literal of more digits
      raises [ValueError] ([sys.int_max_str_digits]; 0 switches the
      test off);
    - [depth]: the number of recursive calls the interpreter still
      allows.  Entering an object or an array takes one; so does the
      call of the constant hook for NaN and the infinities; raising
      JSONDecodeError from inside the scanner takes three (the call of
      the class, its [__init__], and the [__init__] of [ValueError]).
      Where the calls left do not suffice, [RecursionError] is raised.

    Characters are written by code point: 34 double quote, 92 backslash,
    117 u, 123 and 125 curly braces, 91 and 93 square brackets, 44 comma,
    58 colon, 45 minus, 43 plus, 46 dot, 48 to 57 digits, 101 and 69 the
    exponent letters, 32 9 10 13 the JSON whitespace. *)

Module Decoder.

(** The outcome of a scanner: a value and the input left, an exception,
    or the exhaustion of the fuel that bounds the loops of the model
    (which [decode_with] never lets happen, see [decode_fuel]). *)
Inductive presult (A : Type) : Type :=
| POk (a : A) (rest : pystr)
| PErr (e : exn)
| PFuel.
Arguments PErr {A} e.
Arguments PFuel {A}.

(** The characters of [WHITESPACE]: space, tab, line feed, carriage
    return. *)
Definition is_ws (c : N) : bool :=
  (c =? 32) || (c =? 9) || (c =? 10) || (c =? 13).

Fixpoint skip_ws (s : pystr) : pystr :=
  match s with
  | [] => []
  | c :: r => if is_ws c then skip_ws r else s
  end.

Definition is_digit (c : N) : bool := (48 <=? c) && (c <=? 57).

Definition hexval (c : N) : option N :=
  if (48 <=? c) && (c <=? 57) then Some (c - 48)
  else if (65 <=? c) && (c <=? 70) then Some (c - 55)
  else if (97 <=? c) && (c <=? 102) then Some (c - 87)
  else None.

(** [_decode_uXXXX] on the four characters after the [u]. *)
Definition hex4 (a b c d : N) : option N :=
  match hexval a, hexval b, hexval c, hexval d with
  | Some x, Some y, Some z, Some w => Some (((x * 16 + y) * 16 + z) * 16 + w)
  | _, _, _, _ => None
  end.

(** The [BACKSLASH] table. *)
Definition backslash (e : N) : option N :=
  if e =? 34 then Some 34
  else if e =? 92 then Some 92
  else if e =? 47 then Some 47
  else if e =? 98 then Some 8
  else if e =? 102 then Some 12
  else if e =? 110 then Some 10
  else if e =? 114 then Some 13
  else if e =? 116 then Some 9
  else None.

Definition is_high_surrogate (u : N) : bool := (55296 <=? u) && (u <=? 56319).
Definition is_low_surrogate (u : N) : bool := (56320 <=? u) && (u <=? 57343).

Definition join_surrogates (u u2 : N) : N :=
  65536 + N.lor (N.shiftl (u - 55296) 10) (u2 - 56320).

(** [scanstring(s, end, strict=True)], entered after the opening quote;
    [acc] holds the decoded characters in reverse. *)
Fixpoint scanstring (s : pystr) (acc : pystr) {struct s}
  : option (pystr * pystr) :=
  match s with
  | [] => None
  | c :: r =>
    if c =? 34 then Some (rev acc, r)
    else if c =? 92 then
      match r with
      | [] => None
      | e :: r1 =>
        if e =? 117 then
          match r1 with
          | h1 :: h2 :: h3 :: h4 :: r2 =>
            match hex4 h1 h2 h3 h4 with
            | None => None
            | Some uni =>
              if is_high_surrogate uni then
                match r2 with
                | b :: u :: r3 =>
                  if (b =? 92) && (u =? 117) then
                    match r3 with
                    | k1 :: k2 :: k3 :: k4 :: r4 =>
                      match hex4 k1 k2 k3 k4 with
                      | None => None
                      | Some uni2 =>
                        if is_low_surrogate uni2
                        then scanstring r4 (join_surrogates uni uni2 :: acc)
                        else scanstring r2 (uni :: acc)
                      end
                    | _ => None
                    end
                  else scanstring r2 (uni :: acc)
                | _ => scanstring r2 (uni :: acc)
                end
              else scanstring r2 (uni :: acc)
            end
          | _ => None
          end
        else
          match backslash e with
          | Some ch => scanstring r1 (ch :: acc)
          | None => None
          end
      end
    else if c <? 32 then None
    else scanstring r (c :: acc)
  end.

(** Maximal run of decimal digits. *)
Fixpoint span_digits (s : pystr) : pystr * pystr :=
  match s with
  | [] => ([], [])
  | c :: r =>
      if is_digit c
      then let '(d, r') := span_digits r in (c :: d, r')
      else ([], s)
  end.

Definition digits_value (d : pystr) : Z :=
  fold_left (fun a c => (a * 10 + (Z.of_N c - 48))%Z) d 0%Z.

(** The integer part of [NUMBER_RE] without its sign: a single zero, or
    a nonzero digit followed by digits. *)
Definition match_int (s : pystr) : option (pystr * pystr) :=
  match s with
  | [] => None
  | c :: r =>
      if c =? 48 then Some ([c], r)
      else if is_digit c
      then let '(d, r') := span_digits r in Some (c :: d, r')
      else None
  end.

(** The optional fraction of [NUMBER_RE]: a dot and at least one digit. *)
Definition match_frac (s : pystr) : pystr * pystr :=
  match s with
  | c :: r =>
      if c =? 46 then
        match span_digits r with
        | ([], _) => ([], s)
        | (d, r') => (c :: d, r')
        end
      else ([], s)
  | [] => ([], s)
  end.

(** The optional exponent of [NUMBER_RE]: e or E, an optional sign and at
    least one digit. *)
Definition match_exp (s : pystr) : pystr * pystr :=
  match s with
  | c :: r =>
      if (c =? 101) || (c =? 69) then
        match r with
        | g :: r1 =>
            if (g =? 45) || (g =? 43) then
              match span_digits r1 with
              | ([], _) => ([], s)
              | (d, r') => (c :: g :: d, r')
              end
            else
              match span_digits r with
              | ([], _) => ([], s)
              | (d, r') => (c :: d, r')
              end
        | [] => ([], s)
        end
      else ([], s)
  | [] => ([], s)
  end.

(** [PyLong_FromString] on the digits of an integer literal: above
    [max_digits] digits it raises [ValueError]; a limit of 0 switches
    the test off. *)
Definition parse_int (max_digits : N) (neg : bool) (ip : pystr)
  : result json :=
  if (0 <? max_digits) && (max_digits <? N.of_nat (List.length ip))
  then inl ValueError_digits
  else inr (JInt (if neg then - digits_value ip else digits_value ip)%Z).

(** [NUMBER_RE.match] followed by the conversion of [scan_once]: an
    integer when there is neither fraction nor exponent, else a float. *)
Definition match_number (max_digits : N) (s : pystr)
  : option (result json * pystr) :=
  let '(neg, s1) :=
    match s with
    | c :: r => if c =? 45 then (true, r) else (false, s)
    | [] => (false, s)
    end in
  match match_int s1 with
  | None => None
  | Some (ip, s2) =>
      let '(fp, s3) := match_frac s2 in
      let '(ep, s4) := match_exp s3 in
      match fp, ep with
      | [], [] => Some (parse_int max_digits neg ip, s4)
      | _, _ =>
          Some (inr (JFloat ((if neg then [45%N] else []) ++ ip ++ fp ++ ep)),
                s4)
      end
  end.

(** A fixed word at the head of the input. *)
Definition word (w : string) (s : pystr) : option pystr :=
  if startswith s (py w) then Some (skipn (String.length w) s) else None.

(** [raise_errmsg]: the exception raised where the scanner builds a
    JSONDecodeError with [depth] calls left. *)
Definition errmsg (depth : nat) : exn :=
  if (depth <? 3)%nat then RecursionError else JSONDecodeError.

(** [_parse_constant]: the call of the constant hook with [depth] calls
    left. *)
Definition parse_constant (depth : nat) (name : string) (rest : pystr)
  : presult json :=
  match depth with
  | O => PErr RecursionError
  | S _ => POk (JFloat (py name)) rest
  end.

(** The loop of [JSONArray], entered at the first element; [depth] is
    what is left inside the array. *)
Fixpoint array_items (scan : pystr -> presult json) (depth n : nat)
    (s : pystr) (acc : list json) : presult (list json) :=
  match n with
  | O => PFuel
  | S n' =>
      match scan s with
      | POk v r =>
          match skip_ws r with
          | c :: r2 =>
              if c =? 93 then POk (rev (v :: acc)) r2
              else if c =? 44
              then array_items scan depth n' (skip_ws r2) (v :: acc)
              else PErr (errmsg depth)
          | [] => PErr (errmsg depth)
          end
      | PErr e => PErr e
      | PFuel => PFuel
      end
  end.

(** The loop of [JSONObject], entered at the quote that opens a key;
    [depth] is what is left inside the object. *)
Fixpoint object_items (scan : pystr -> presult json) (depth n : nat)
    (s : pystr) (acc : list (pystr * json))
  : presult (list (pystr * json)) :=
  match n with
  | O => PFuel
  | S n' =>
      match s with
      | q :: s0 =>
          if q =? 34 then
            match scanstring s0 [] with
            | None => PErr (errmsg depth)
            | Some (key, r0) =>
                match skip_ws r0 with
                | c :: r1 =>
                    if c =? 58 then
                      match scan (skip_ws r1) with
                      | POk v r2 =>
                          match skip_ws r2 with
                          | e :: r3 =>
                              if e =? 125 then POk (rev ((key, v) :: acc)) r3
                              else if e =? 44
                              then object_items scan depth n' (skip_ws r3)
                                     ((key, v) :: acc)
                              else PErr (errmsg depth)
                          | [] => PErr (errmsg depth)
                          end
                      | PErr e => PErr e
                      | PFuel => PFuel
                      end
                    else PErr (errmsg depth)
                | [] => PErr (errmsg depth)
                end
            end
          else PErr (errmsg depth)
      | [] => PErr (errmsg depth)
      end
  end.

(** [scan_once]: one JSON value at the head of the input.  An object or
    an array is entered through [Py_EnterRecursiveCall], before anything
    of it is read.  Where no value begins, [StopIteration] is raised. *)
Fixpoint scan_once (max_digits : N) (fuel depth : nat) (s : pystr)
    {struct fuel} : presult json :=
  match fuel with
  | O => PFuel
  | S f =>
      match s with
      | [] => PErr StopIteration
      | c :: r =>
          if c =? 34 then
            match scanstring r [] with
            | Some (str, r') => POk (JStr str) r'
            | None => PErr (errmsg depth)
            end
          else if c =? 123 then
            match depth with
            | O => PErr RecursionError
            | S d =>
                match skip_ws r with
                | e :: r1 =>
                    if e =? 125 then POk (JDict []) r1
                    else
                      match object_items (scan_once max_digits f d) d f
                              (e :: r1) [] with
                      | POk pairs r2 => POk (JDict (Dict.of_pairs pairs)) r2
                      | PErr x => PErr x
                      | PFuel => PFuel
                      end
                | [] => PErr (errmsg d)
                end
            end
          else if c =? 91 then
            match depth with
            | O => PErr RecursionError
            | S d =>
                match skip_ws r with
                | e :: r1 =>
                    if e =? 93 then POk (JList []) r1
                    else
                      match array_items (scan_once max_digits f d) d f
                              (e :: r1) [] with
                      | POk items r2 => POk (JList items) r2
                      | PErr x => PErr x
                      | PFuel => PFuel
                      end
                | [] => PErr StopIteration
                end
            end
          else
            match word "null" s, word "true" s, word "false" s with
            | Some r', _, _ => POk JNull r'
            | None, Some r', _ => POk (JBool true) r'
            | None, None, Some r' => POk (JBool false) r'
            | None, None, None =>
                match match_number max_digits s with
                | Some (inr v, r') => POk v r'
                | Some (inl x, _) => PErr x
                | None =>
                    match word "NaN" s, word "Infinity" s, word "-Infinity" s with
                    | Some r', _, _ => parse_constant depth "NaN" r'
                    | None, Some r', _ => parse_constant depth "Infinity" r'
                    | None, None, Some r' =>
                        parse_constant depth "-Infinity" r'
                    | None, None, None => PErr StopIteration
                    end
                end
            end
      end
  end.

(** A JSONDecodeError raised by the Python code of the decoder, [above]
    frames above the scanner. *)
Definition raise_JSONDecodeError (depth above : nat) : exn :=
  errmsg (depth + above).

(** [json.loads] on a [str] under given limits, [depth] being what is
    left when the scanner is called: the byte-order-mark test, then
    [JSONDecoder.decode]: leading whitespace, one value ([raw_decode],
    which turns the [StopIteration] of the scanner into JSONDecodeError),
    trailing whitespace, end of input. *)
Definition decode_with (max_digits : N) (depth : nat) (s : pystr)
  : result json :=
  if startswith s [65279%N] then inl (raise_JSONDecodeError depth 3)
  else
    match scan_once max_digits (S (List.length s)) depth (skip_ws s) with
    | POk v rest =>
        match skip_ws rest with
        | [] => inr v
        | _ :: _ => inl (raise_JSONDecodeError depth 2)
        end
    | PErr StopIteration => inl (raise_JSONDecodeError depth 1)
    | PErr e => inl e
    | PFuel => inl JSONDecodeError
    end.

(** The limits of the interpreter that runs the handler, at the defaults
    of CPython 3.11: [sys.get_int_max_str_digits()] is 4300, and with
    [sys.getrecursionlimit()] at 1000 and the handler called from the
    top level, 994 calls are left when the scanner is called from
    [json.loads] in the handler's frame (a deeper call stack leaves
    fewer). *)
Definition int_max_str_digits : N := 4300.
Definition recursion_budget : nat := 994.

(** [json.loads(s)] for a [str], as the handler runs it. *)
Definition loads_str (s : pystr) : result json :=
  decode_with int_max_str_digits recursion_budget s.

(** The value that [json.loads] returns, [None] when it raises. *)
Definition decode (s : pystr) : option json :=
  match loads_str s with
  | inr v => Some v
  | inl _ => None
  end.

End Decoder.


(* ================================================================== *)
(** * The dynamic operations of Python values *)
(* ================================================================== *)

Module Py.

(** [json.loads(v)]: a [str] is decoded, any other JSON value is
    rejected with [TypeError]. *)
Definition loads (v : json) : result json :=
  match v with
  | JStr s => Decoder.loads_str s
  | _ => inl TypeError
  end.

(** [x == k] for a string [k]. *)
Definition eq_str (x : json) (k : pystr) : bool :=
  match x with
  | JStr s => str_eqb s k
  | _ => false
  end.

(** [k in v] for a string [k]. *)
Definition contains (k : pystr) (v : json) : result bool :=
  match v with
  | JDict d => inr (Dict.mem d k)
  | JList l => inr (existsb (fun x => eq_str x k) l)
  | JStr s => inr (PyStr.contains s k)
  | _ => inl TypeError
  end.

(** [v[k]] for a string [k]. *)
Definition getitem (v : json) (k : pystr) : result json :=
  match v with
  | JDict d =>
      match Dict.lookup d k with
      | Some x => inr x
      | None => inl KeyError
      end
  | _ => inl TypeError
  end.

(** [v[0]] *)
Definition getitem0 (v : json) : result json :=
  match v with
  | JList (x :: _) => inr x
  | JList [] => inl IndexError
  | JStr (c :: _) => inr (JStr [c])
  | JStr [] => inl IndexError
  | JDict _ => inl KeyError
  | _ => inl TypeError
  end.

(** [v.get(k, default)] *)
Definition get (v : json) (k : pystr) (default : json) : result json :=
  match v with
  | JDict d =>
      match Dict.lookup d k with
      | Some x => inr x
      | None => inr default
      end
  | _ => inl AttributeError
  end.

(** [isinstance(v, list)] *)
Definition is_list (v : json) : bool :=
  match v with JList _ => true | _ => false end.

End Py.

(* ================================================================== *)
(** * Model request adapter (lines 105-162) *)
(* ================================================================== *)

Module Adapter.

Definition f02 : json := JFloat (py "0.2").
Definition f07 : json := JFloat (py "0.7").
Definition f09 : json := JFloat (py "0.9").

(** The dictionary [bedrock_body] built for [MODEL_ID] and [prompt_text];
    the boolean tells whether the warning of the last branch is logged. *)
Definition build_body (MODEL_ID prompt_text : pystr) : json * bool :=
  if startswith MODEL_ID (py "anthropic.claude-3") then
    (JDict
       [(py "anthropic_version", JStr (py "bedrock-2023-05-31"));
        (py "messages",
         JList [JDict [(py "role", JStr (py "user"));
                       (py "content",
                        JList [JDict [(py "type", JStr (py "text"));
                                      (py "text", JStr prompt_text)]])]]);
        (py "max_tokens", JInt 500);
        (py "temperature", f02);
        (py "top_p", f09)], false)
  else if startswith MODEL_ID (py "anthropic.claude-v2")
          || startswith MODEL_ID (py "anthropic.claude-instant") then
    (JDict
       [(py "prompt",
         JStr ([10; 10] ++ py "Human: " ++ prompt_text
               ++ [10; 10] ++ py "Assistant:"));
        (py "max_tokens_to_sample", JInt 500);
        (py "temperature", f02);
        (py "top_p", f09)], false)
  else if startswith MODEL_ID (py "amazon.titan-text") then
    (JDict
       [(py "inputText", JStr prompt_text);
        (py "textGenerationConfig",
         JDict [(py "maxTokenCount", JInt 500);
                (py "temperature", f02);
                (py "topP", f09)])], false)
  else if startswith MODEL_ID (py "us.amazon.nova-lite") then
    (JDict
       [(py "messages",
         JList [JDict [(py "role", JStr (py "user"));
                       (py "content",
                        JList [JDict [(py "text", JStr prompt_text)]])]]);
        (py "inferenceConfig",
         JDict [(py "maxTokens", JInt 150);
                (py "temperature", f07);
                (py "topP", f09)])], false)
  else
    (JDict
       [(py "messages",
         JList [JDict [(py "role", JStr (py "user"));
                       (py "content",
                        JList [JDict [(py "type", JStr (py "text"));
                                      (py "text", JStr prompt_text)]])]]);
        (py "inferenceConfig",
         JDict [(py "maxTokens", JInt 500);
                (py "temperature", f02);
                (py "topP", f09)])], true).

End Adapter.

(* ================================================================== *)
(** * Response extractor (lines 182-237) *)
(* ================================================================== *)

(** The log records of the handler, one constructor per [logger] call
    with the values it interpolates. *)
Inductive log : Type :=
| Log_using_model (model : pystr)
| Log_file_not_found
| Log_unknown_model_prefix (model : pystr)
| Log_extract_failed (alert_id : pystr) (json_e : exn) (raw : pystr)
| Log_bedrock_output (alert_id : pystr) (output : json)
| Log_analysis_failed (alert_id : pystr) (e : exn)
| Log_processed (alert_id : pystr) (action_type summary : json)
| Log_malformed_line (line : pystr) (e : exn)
| Log_unexpected_error (line : pystr) (e : exn).

Inductive level : Type := INFO | WARNING | ERROR.

Definition log_level (l : log) : level :=
  match l with
  | Log_using_model _ | Log_bedrock_output _ _ | Log_processed _ _ _ => INFO
  | Log_unknown_model_prefix _ => WARNING
  | _ => ERROR
  end.

(** The five classification variables of the handler. *)
Record Classification : Type := {
  ai_summary : json;
  is_real_threat : json;
  action_type : json;
  ai_handling_message : json;
  human_guidance_message : json
}.

Module Extractor.

(** The direct-parse test of line 186. *)
Definition looks_bare (result_raw : pystr) : bool :=
  startswith (strip result_raw) [c_lbrace]
  && endswith (strip result_raw) [c_rbrace].

(** The body of the inner [try] (lines 190-197). *)
Definition bracket_parse (result_raw : pystr) : result json :=
  let json_start := find result_raw c_lbrace in
  let json_end := rfind result_raw c_rbrace in
  if negb (json_start =? -1)%Z && negb (json_end =? -1)%Z
     && (json_end >? json_start)%Z
  then Py.loads (JStr (slice result_raw json_start (json_end + 1)))
  else inl ValueError.

(** Lines 185-200: the value of [bedrock_output], with what was logged. *)
Definition stage_a (alert_id result_raw : pystr) : list log * result json :=
  if looks_bare result_raw then ([], Py.loads (JStr result_raw))
  else
    match bracket_parse result_raw with
    | inr v => ([], inr v)
    | inl json_e =>
        if is_JSONDecodeError json_e || is_ValueError json_e
        then ([Log_extract_failed alert_id json_e result_raw], inr (JDict []))
        else ([], inl json_e)
    end.

(** Lines 213-229: the value of [parsed_content]. *)
Definition stage_b (bedrock_output : json) : result json :=
  has_completion <- Py.contains (py "completion") bedrock_output ;;
  if has_completion : bool then
    c <- Py.getitem bedrock_output (py "completion") ;;
    Py.loads c
  else
    has_content <- Py.contains (py "content") bedrock_output ;;
    is_l <- (if has_content : bool
             then (c <- Py.getitem bedrock_output (py "content") ;;
                   inr (Py.is_list c))
             else inr false) ;;
    if is_l : bool then
      c <- Py.getitem bedrock_output (py "content") ;;
      first <- Py.getitem0 c ;;
      text_content <- Py.get first (py "text") (JStr []) ;;
      Py.loads text_content
    else
      has_results <- Py.contains (py "results") bedrock_output ;;
      is_l <- (if has_results : bool
               then (c <- Py.getitem bedrock_output (py "results") ;;
                     inr (Py.is_list c))
               else inr false) ;;
      if is_l : bool then
        c <- Py.getitem bedrock_output (py "results") ;;
        first <- Py.getitem0 c ;;
        text_content <- Py.get first (py "outputText") (JStr []) ;;
        Py.loads text_content
      else
        has_messages <- Py.contains (py "messages") bedrock_output ;;
        is_l <- (if has_messages : bool
                 then (c <- Py.getitem bedrock_output (py "messages") ;;
                       inr (Py.is_list c))
                 else inr false) ;;
        if is_l : bool then
          c <- Py.getitem bedrock_output (py "messages") ;;
          first <- Py.getitem0 c ;;
          content <- Py.get first (py "content") (JList [JDict []]) ;;
          block <- Py.getitem0 content ;;
          text_content <- Py.get block (py "text") (JStr []) ;;
          Py.loads text_content
        else inr bedrock_output.

(** Lines 233-237. *)
Definition fields (parsed_content : json) : result Classification :=
  s <- Py.get parsed_content (py "summary")
         (JStr (py "No AI summary generated.")) ;;
  t <- Py.get parsed_content (py "is_real_threat") (JBool false) ;;
  a <- Py.get parsed_content (py "action_type") (JStr (py "UNKNOWN")) ;;
  m <- Py.get parsed_content (py "ai_handling_message") (JStr []) ;;
  h <- Py.get parsed_content (py "human_guidance_message") (JStr []) ;;
  inr {| ai_summary := s; is_real_threat := t; action_type := a;
         ai_handling_message := m; human_guidance_message := h |}.

(** Lines 185-237 as a whole: the log records written and either the
    exception that leaves the block or the five classification values. *)
Definition extract (alert_id result_raw : pystr)
  : list log * result Classification :=
  let '(logs, a) := stage_a alert_id result_raw in
  match a with
  | inl e => (logs, inl e)
  | inr bedrock_output =>
      (logs ++ [Log_bedrock_output alert_id bedrock_output],
       parsed_content <- stage_b bedrock_output ;; fields parsed_content)
  end.

(** The classification recovered from a raw response, the log left
    aside. *)
Definition classify (result_raw : pystr) : result Classification :=
  snd (extract [] result_raw).

End Extractor.

(* ================================================================== *)
(** * Pipeline driver (lines 24-323) *)
(* ================================================================== *)

(** What the handler takes from its surroundings: configuration read at
    import time, the clock, the three service clients, and the library
    functions that only render text. *)
Record Platform : Type := {
  World : Type;
  datetime : Type;
  MODEL_ID : pystr;
  ENV : pystr;
  now : World -> World * datetime;
  strftime_us : datetime -> pystr;
  isoformat : datetime -> pystr;
  invoke_model : World -> pystr -> json -> World * result pystr;
  put_item : World -> json -> World * option exn;
  publish : World -> pystr -> pystr -> World * option exn;
  format_prompt : json -> pystr;
  json_dumps : json -> pystr;
  json_dumps_indent2 : json -> pystr;
  repr : json -> pystr;
  exn_str : exn -> pystr
}.

(** What the handler does to its surroundings, in order. *)
Inductive event : Type :=
| ELog (l : log)
| EInvoke (model : pystr) (body : json)
| EPut (item : json)
| EPublish (subject message : pystr).

(** One element of [processed_alerts_summary]. *)
Record SummaryEntry : Type := {
  entry_AlertID : pystr;
  entry_summary : json;
  entry_action_type : json;
  entry_is_real_threat : json
}.

(** The dictionary [alert]. *)
Record Alert : Type := {
  AlertID : pystr;
  Severity : json;
  Source : json;
  Message : json;
  ReceivedAt : pystr
}.

(** The variables that the persistence and notification steps read. *)
Record Finalized : Type := {
  classification : Classification;
  inference_metadata : dict
}.

(** The spec calls the action type of a failed inference
    ERROR_INFERENCE_FAILED; the handler writes this string (line 167). *)
Definition ERROR_BEDROCK_FAILED : pystr := py "ERROR_BEDROCK_FAILED".

Module Driver.

Section WithPlatform.

Variable P : Platform.

(** [str(v)] inside an f-string. *)
Definition py_str (v : json) : pystr :=
  match v with
  | JStr s => s
  | _ => repr P v
  end.

Definition alert_json (a : Alert) : json :=
  JDict [(py "AlertID", JStr (AlertID a));
         (py "Severity", Severity a);
         (py "Source", Source a);
         (py "Message", Message a);
         (py "ReceivedAt", JStr (ReceivedAt a))].

(** Lines 165-170: the values held when the analysis did not complete,
    with the metadata that line 248 then stores. *)
Definition failure_defaults : Classification :=
  {| ai_summary := JStr (py "AI analysis unavailable at this time.");
     is_real_threat := JBool false;
     action_type := JStr ERROR_BEDROCK_FAILED;
     ai_handling_message := JStr [];
     human_guidance_message := JStr [] |}.

Definition failed (e : exn) : Finalized :=
  {| classification := failure_defaults;
     inference_metadata := [(py "error", JStr (exn_str P e))] |}.

(** Lines 172-248: model invocation and extraction under the handler
    that turns every exception into the failure record. *)
Definition analyse (w : World P) (alert_id : pystr) (bedrock_body : json)
  : World P * list event * Finalized :=
  let '(w1, r) := invoke_model P w (MODEL_ID P) bedrock_body in
  let call := EInvoke (MODEL_ID P) bedrock_body in
  match r with
  | inl e => (w1, [call; ELog (Log_analysis_failed alert_id e)], failed e)
  | inr result_raw =>
      let '(logs, c) := Extractor.extract alert_id result_raw in
      match c with
      | inl e =>
          (w1,
           call :: map ELog logs ++ [ELog (Log_analysis_failed alert_id e)],
           failed e)
      | inr cls =>
          let '(w2, t) := now P w1 in
          (w2, call :: map ELog logs,
           {| classification := cls;
              inference_metadata :=
                [(py "model", JStr (MODEL_ID P));
                 (py "timestamp", JStr (isoformat P t));
                 (py "raw_bedrock_response", JStr result_raw)] |})
      end
  end.

(** Lines 252-272: the item written to the table. *)
Definition item_of (a : Alert) (f : Finalized) : json :=
  let c := classification f in
  let md := inference_metadata f in
  JDict
    [(py "AlertID", JStr (AlertID a));
     (py "ReceivedAt", JStr (ReceivedAt a));
     (py "Severity", Severity a);
     (py "Source", Source a);
     (py "Message", Message a);
     (py "AISummary", ai_summary c);
     (py "IsRealThreat", is_real_threat c);
     (py "ActionType", action_type c);
     (py "AIHandlingMessage", ai_handling_message c);
     (py "HumanGuidanceMessage", human_guidance_message c);
     (py "Status", JStr (py "Open"));
     (py "ProcessedBy", JStr (py "UASO_Lambda"));
     (py "Environment", JStr (ENV P));
     (py "ModelUsed",
      match Dict.lookup md (py "model") with
      | Some m => m
      | None => JStr (py "unknown")
      end);
     (py "InferenceTimestamp",
      match Dict.lookup md (py "timestamp") with
      | Some t => t
      | None => JNull
      end);
     (py "Metadata", JStr (json_dumps P (JDict md)))].

(** Lines 275-296: subject and body of the notification. *)
Definition subject_of (a : Alert) (c : Classification) : pystr :=
  let tail := py_str (Severity a) ++ py " - " ++ py_str (Source a) in
  let act := action_type c in
  if Py.eq_str act (py "AI_HANDLED")
  then py "[UASO Alert - AI Handled] " ++ tail
  else if Py.eq_str act (py "HUMAN_REQUIRED")
  then py "[UASO Alert - Human Required] " ++ tail
  else if Py.eq_str act (py "FALSE_POSITIVE")
  then py "[UASO Alert - False Positive] " ++ tail
  else if Py.eq_str act (py "NON_ADDRESSABLE")
  then py "[UASO Alert - Non-Addressable] " ++ tail
  else py "[UASO Alert - Action Unknown] " ++ tail.

Definition message_of (a : Alert) (c : Classification) : pystr :=
  let act := action_type c in
  py "Alert Summary: " ++ py_str (ai_summary c) ++ [10; 10]
  ++ (if Py.eq_str act (py "AI_HANDLED")
      then py "AI Agent Action: " ++ py_str (ai_handling_message c) ++ [10]
           ++ py "This threat has been automatically addressed by the AI agent. No human intervention needed."
      else if Py.eq_str act (py "HUMAN_REQUIRED")
      then py "Human Guidance: " ++ py_str (human_guidance_message c) ++ [10]
           ++ py "Immediate human intervention is required for this threat. Please follow the guidance above."
      else if Py.eq_str act (py "FALSE_POSITIVE")
      then py "This alert has been classified as a false positive and requires no action. No human intervention needed."
      else if Py.eq_str act (py "NON_ADDRESSABLE")
      then py "This alert is a real threat but is currently outside the scope of automated handling or requires external action. Manual review is recommended."
      else py "The AI could not confidently determine the appropriate action for this alert. Manual review is highly recommended.")
  ++ [10; 10] ++ py "Full Alert Details:" ++ [10]
  ++ json_dumps_indent2 P (alert_json a).

Definition entry_of (a : Alert) (c : Classification) : SummaryEntry :=
  {| entry_AlertID := AlertID a;
     entry_summary := ai_summary c;
     entry_action_type := action_type c;
     entry_is_real_threat := is_real_threat c |}.

(** Lines 44-53: the alert built from one line of the file.  The clock
    is read before and after the three [get] calls. *)
Definition build_alert (w : World P) (line : pystr)
  : World P * result Alert :=
  match Py.loads (JStr (strip line)) with
  | inl e => (w, inl e)
  | inr alert_data =>
      let '(w1, t1) := now P w in
      match
        (sev <- Py.get alert_data (py "Severity") (JStr (py "Low")) ;;
         src <- Py.get alert_data (py "Source") (JStr (py "Unknown")) ;;
         msg <- Py.get alert_data (py "Message") (JStr []) ;;
         inr (sev, src, msg))
      with
      | inl e => (w1, inl e)
      | inr (sev, src, msg) =>
          let '(w2, t2) := now P w1 in
          (w2, inr {| AlertID := py "ALERT-" ++ strftime_us P t1;
                      Severity := sev; Source := src; Message := msg;
                      ReceivedAt := isoformat P t2 |})
      end
  end.

(** Lines 250-310: persistence, notification and bookkeeping for a
    finalized alert.  An exception of [put_item] or [publish] leaves the
    block at once. *)
Definition deliver (w : World P) (a : Alert) (f : Finalized)
  : World P * list event * result SummaryEntry :=
  let c := classification f in
  let item := item_of a f in
  let '(w1, r1) := put_item P w item in
  match r1 with
  | Some e => (w1, [EPut item], inl e)
  | None =>
      let subject := subject_of a c in
      let message := message_of a c in
      let '(w2, r2) := publish P w1 subject message in
      match r2 with
      | Some e => (w2, [EPut item; EPublish subject message], inl e)
      | None =>
          (w2,
           [EPut item; EPublish subject message;
            ELog (Log_processed (AlertID a) (action_type c) (ai_summary c))],
           inr (entry_of a c))
      end
  end.

(** Lines 103-170 and 172-248 for a built alert: prompt, request body,
    analysis. *)
Definition enrich (w : World P) (a : Alert)
  : World P * list event * Finalized :=
  let prompt_text := format_prompt P (Message a) in
  let '(bedrock_body, unknown) := Adapter.build_body (MODEL_ID P) prompt_text in
  let warn := if unknown : bool
              then [ELog (Log_unknown_model_prefix (MODEL_ID P))] else [] in
  let '(w1, evs, f) := analyse w (AlertID a) bedrock_body in
  (w1, warn ++ evs, f).

(** The body of the outer [try] (lines 44-310). *)
Definition try_line (w : World P) (line : pystr)
  : World P * list event * result SummaryEntry :=
  let '(w1, ra) := build_alert w line in
  match ra with
  | inl e => (w1, [], inl e)
  | inr a =>
      let '(w2, evs, f) := enrich w1 a in
      let '(w3, evs', r) := deliver w2 a f in
      (w3, evs ++ evs', r)
  end.

(** One iteration of the loop with its two handlers (lines 43-315). *)
Definition process_line (w : World P) (line : pystr)
  : World P * list event * option SummaryEntry :=
  let '(w1, evs, r) := try_line w line in
  match r with
  | inr entry => (w1, evs, Some entry)
  | inl e =>
      if is_JSONDecodeError e
      then (w1, evs ++ [ELog (Log_malformed_line (strip line) e)], None)
      else (w1, evs ++ [ELog (Log_unexpected_error (strip line) e)], None)
  end.

(** The state of the loop: the world, what was done so far, and
    [processed_alerts_summary]. *)
Record Loop : Type := {
  world : World P;
  trace : list event;
  processed_alerts_summary : list SummaryEntry
}.

Definition step (st : Loop) (line : pystr) : Loop :=
  let '(w, evs, r) := process_line (world st) line in
  {| world := w;
     trace := trace st ++ evs;
     processed_alerts_summary :=
       processed_alerts_summary st
       ++ match r with Some e => [e] | None => [] end |}.

(** [for line in f] *)
Definition run (st : Loop) (lines : list pystr) : Loop :=
  fold_left step lines st.

(** The response of the handler. *)
Record Response : Type := {
  statusCode : Z;
  processed_alerts : list SummaryEntry
}.

(** [lambda_handler]: [file] is the content of the alert file as its
    lines, or [None] when the file does not exist.  The file is read to
    its end and the response is serialized; [Coverage.lambda_handler_io]
    has the handler with the exceptions that lines 41-42 and 319 raise
    outside every [try]. *)
Definition lambda_handler (w : World P) (file : option (list pystr))
  : Loop * Response :=
  let start := {| world := w; trace := [ELog (Log_using_model (MODEL_ID P))];
                  processed_alerts_summary := [] |} in
  match file with
  | None =>
      ({| world := w;
          trace := trace start ++ [ELog Log_file_not_found];
          processed_alerts_summary := [] |},
       {| statusCode := 404; processed_alerts := [] |})
  | Some lines =>
      let st := run start lines in
      (st, {| statusCode := 200;
              processed_alerts := processed_alerts_summary st |})
  end.

(** The request built for an alert, and the warning that goes with it. *)
Definition request_of (a : Alert) : json :=
  fst (Adapter.build_body (MODEL_ID P) (format_prompt P (Message a))).

Definition warning_of (a : Alert) : list event :=
  if snd (Adapter.build_body (MODEL_ID P) (format_prompt P (Message a)))
  then [ELog (Log_unknown_model_prefix (MODEL_ID P))] else [].

(** A line of the alert file that decodes to a JSON object. *)
Definition is_alert_line (line : pystr) : bool :=
  match Py.loads (JStr (strip line)) with
  | inr (JDict _) => true
  | _ => false
  end.


End WithPlatform.

End Driver.

(* ================================================================== *)
(** * Reference definitions that follow the specification *)
(* ================================================================== *)

Module Spec.

(** The model families of section 4.2. *)
Inductive family : Type :=
| Claude3 | ClaudeLegacy | TitanText | NovaLite | Fallback.

(** The prefix table of section 4.2, in its fixed order. *)
Definition family_table : list (list pystr * family) :=
  [([py "anthropic.claude-3"], Claude3);
   ([py "anthropic.claude-v2"; py "anthropic.claude-instant"], ClaudeLegacy);
   ([py "amazon.titan-text"], TitanText);
   ([py "us.amazon.nova-lite"], NovaLite)].

(** First match wins; no match selects the fallback. *)
Fixpoint first_match (table : list (list pystr * family)) (model : pystr)
  : family :=
  match table with
  | [] => Fallback
  | (prefixes, f) :: rest =>
      if existsb (startswith model) prefixes then f
      else first_match rest model
  end.

Definition family_of (model : pystr) : family :=
  first_match family_table model.

(** The keys section 4.2 lists for each family at the top level of its
    payload. *)
Definition required_keys (f : family) : list pystr :=
  match f with
  | Claude3 => [py "messages"; py "max_tokens"; py "temperature"; py "top_p"]
  | ClaudeLegacy => [py "prompt"; py "max_tokens_to_sample"]
  | TitanText => [py "inputText"; py "textGenerationConfig"]
  | NovaLite | Fallback => [py "messages"; py "inferenceConfig"]
  end.

(** The keys section 4.2 lists inside the nested configuration block of
    a family. *)
Definition config_keys (f : family) : list pystr :=
  match f with
  | TitanText => [py "maxTokenCount"; py "temperature"; py "topP"]
  | NovaLite => [py "maxTokens"; py "temperature"; py "topP"]
  | Claude3 | ClaudeLegacy | Fallback => []
  end.

(** A step into a JSON value: a key of an object or an index of an
    array. *)
Inductive sel : Type :=
| K (k : string)
| I (i : nat).

Fixpoint at_path (v : json) (p : list sel) : option json :=
  match p with
  | [] => Some v
  | K k :: p' =>
      match v with
      | JDict d =>
          match Dict.lookup d (py k) with
          | Some x => at_path x p'
          | None => None
          end
      | _ => None
      end
  | I i :: p' =>
      match v with
      | JList l =>
          match nth_error l i with
          | Some x => at_path x p'
          | None => None
          end
      | _ => None
      end
  end.

(** Where each family carries the prompt. *)
Definition prompt_path (f : family) : list sel :=
  match f with
  | Claude3 | NovaLite | Fallback =>
      [K "messages"; I 0%nat; K "content"; I 0%nat; K "text"]
  | ClaudeLegacy => [K "prompt"]
  | TitanText => [K "inputText"]
  end.

(** How each family carries the prompt: the legacy completion family
    wraps it in a Human/Assistant turn. *)
Definition prompt_value (f : family) (prompt : pystr) : json :=
  match f with
  | ClaudeLegacy =>
      JStr ([10; 10] ++ py "Human: " ++ prompt ++ [10; 10] ++ py "Assistant:")
  | _ => JStr prompt
  end.

(** Where each family carries its generation parameters. *)
Definition config_path (f : family) : list sel :=
  match f with
  | Claude3 | ClaudeLegacy => []
  | TitanText => [K "textGenerationConfig"]
  | NovaLite | Fallback => [K "inferenceConfig"]
  end.

Definition max_tokens_key (f : family) : string :=
  match f with
  | Claude3 => "max_tokens"
  | ClaudeLegacy => "max_tokens_to_sample"
  | TitanText => "maxTokenCount"
  | NovaLite | Fallback => "maxTokens"
  end.

Definition max_tokens_path (f : family) : list sel :=
  config_path f ++ [K (max_tokens_key f)].

Definition temperature_path (f : family) : list sel :=
  config_path f ++ [K "temperature"].

(** The default model identifier (line 16). *)
Definition default_model : pystr := py "us.amazon.nova-lite-v1:0".

(** The documented defaults of section 3 for a response that carries no
    classification. *)
Definition unknown_defaults : Classification :=
  {| ai_summary := JStr (py "No AI summary generated.");
     is_real_threat := JBool false;
     action_type := JStr (py "UNKNOWN");
     ai_handling_message := JStr [];
     human_guidance_message := JStr [] |}.

(** Section 4.4, shapes 2 to 4: a non-empty sequence whose first element
    has the text field. *)
Definition first_field (field : string) (v : json) : option json :=
  match v with
  | JList (JDict e :: _) => Dict.lookup e (py field)
  | _ => None
  end.

Definition opt_bind {A B : Type} (o : option A) (k : A -> option B)
  : option B :=
  match o with
  | Some a => k a
  | None => None
  end.

(** The inner text of the first shape of section 4.4 that the Stage-A
    object matches, [None] when it matches none of the four. *)
Definition unwrap (d : dict) : option json :=
  match Dict.lookup d (py "completion") with
  | Some c => Some c
  | None =>
    match opt_bind (Dict.lookup d (py "content")) (first_field "text") with
    | Some t => Some t
    | None =>
      match opt_bind (Dict.lookup d (py "results"))
              (first_field "outputText") with
      | Some t => Some t
      | None =>
        opt_bind (opt_bind (Dict.lookup d (py "messages"))
                    (first_field "content"))
          (first_field "text")
      end
    end
  end.

(** Stage B as section 4.4 words it: the first matching shape is parsed,
    an object that matches none is itself the classification JSON. *)
Definition stage_b (d : dict) : result json :=
  match unwrap d with
  | Some t => Py.loads t
  | None => inr (JDict d)
  end.

(** A value that [json.loads] rejects: not a string, or a string that
    does not decode. *)
Definition undecodable (v : json) : Prop :=
  forall t, v = JStr t -> Decoder.decode t = None.

(** A JSON text by the grammar alone: it decodes when no limit on the
    digits of an integer applies and the depth suffices. *)
Definition valid_json (s : pystr) : Prop :=
  exists depth v, Decoder.decode_with 0 depth s = inr v.

(** Some position holds an opening brace and a later one a closing
    brace. *)
Definition has_bracket_pair (s : pystr) : Prop :=
  exists i j : nat,
    (i < j)%nat /\ nth_error s i = Some c_lbrace
    /\ nth_error s j = Some c_rbrace.

(** A text between an opening and a closing brace. *)
Definition braced (j : pystr) : Prop :=
  exists m, j = c_lbrace :: m ++ [c_rbrace].


(** Text made of whitespace only. *)
Definition blank (s : pystr) : bool := forallb isspace s.

(** The JSON text of a string: quotes around it, quote and backslash
    escaped. *)
Definition json_string (s : pystr) : pystr :=
  [c_quote]
  ++ flat_map (fun c => if (c =? c_quote) || (c =? c_backslash)
                        then [c_backslash; c] else [c]) s
  ++ [c_quote].

(** The four family envelopes of section 8 around an inner text. *)
Definition envelope_completion (s : pystr) : pystr :=
  pyq "{'completion': " ++ json_string s ++ pyq "}".
Definition envelope_content (s : pystr) : pystr :=
  pyq "{'content':[{'text': " ++ json_string s ++ pyq "}]}".
Definition envelope_results (s : pystr) : pystr :=
  pyq "{'results':[{'outputText': " ++ json_string s ++ pyq "}]}".
Definition envelope_messages (s : pystr) : pystr :=
  pyq "{'messages':[{'content':[{'text': " ++ json_string s ++ pyq "}]}]}".

End Spec.

(** The top-level keys of the payload each branch of the adapter builds
    (lines 110-161), in the order of the dictionary literal. *)
Definition sent_keys (f : Spec.family) : list pystr :=
  match f with
  | Spec.Claude3 =>
      [py "anthropic_version"; py "messages"; py "max_tokens";
       py "temperature"; py "top_p"]
  | Spec.ClaudeLegacy =>
      [py "prompt"; py "max_tokens_to_sample"; py "temperature"; py "top_p"]
  | Spec.TitanText => [py "inputText"; py "textGenerationConfig"]
  | Spec.NovaLite | Spec.Fallback => [py "messages"; py "inferenceConfig"]
  end.

(* ================================================================== *)
(** * Locality of the decoder: the statements *)
(* ================================================================== *)

Module Locality.

Import Decoder.

(** The test on the first character of a continuation: there is none,
    or it fails [f]. *)
Definition hd_ok (f : N -> bool) (u : pystr) : bool :=
  match u with
  | [] => true
  | x :: _ => negb (f x)
  end.

Definition is_num_next (x : N) : bool :=
  is_digit x || (x =? 46) || (x =? 101) || (x =? 69).

(** A continuation that cannot extend a number. *)
Definition numstop (t : pystr) : bool := hd_ok is_num_next t.

(** The letters that open an exponent. *)
Definition is_e (x : N) : bool := (x =? 101) || (x =? 69).

(** A string is read up to its closing quote, and is read again in
    front of any continuation. *)
Definition string_local (s acc : pystr) : Prop :=
  forall str rest,
    scanstring s acc = Some (str, rest) ->
    exists c, s = c ++ 34 :: rest
              /\ forall t, scanstring (c ++ 34 :: t) acc = Some (str, t).

(** What a successful scan of one value guarantees: the value was read
    from a non-empty prefix of the input, an object was read from a
    braced text, and the same value is read from that prefix in front of
    any continuation that cannot extend a number, with any fuel not less
    than the length of the prefix and any depth not less than the one
    that sufficed. *)
Definition value_local (m : N) (f : nat) : Prop :=
  forall d s v rest,
    scan_once m f d s = POk v rest ->
    exists c,
      s = c ++ rest /\ c <> []
      /\ (forall o, v = JDict o -> Spec.braced c)
      /\ forall t f' d', numstop t = true -> (List.length c <= f')%nat ->
                         (d <= d')%nat ->
                         scan_once m f' d' (c ++ t) = POk v t.

(** Fuel that a scan of a shorter text cannot use up. *)
Definition fuel_enough (m : N) (f : nat) : Prop :=
  forall d s, (List.length s < f)%nat -> scan_once m f d s <> PFuel.

(** The exceptions that [json.loads] raises on a [str], and those of
    its scanner. *)
Definition decode_error (e : exn) : Prop :=
  e = JSONDecodeError \/ e = ValueError_digits \/ e = RecursionError.

Definition scan_error (e : exn) : Prop :=
  decode_error e \/ e = StopIteration.

End Locality.

(** The shape the handler recognises in a Stage-A dictionary: a key that
    is present (completion) or present and bound to a list (the other
    three), tried in order. *)
Inductive shape : Type :=
| Completion (c : json)
| Content (l : list json)
| Results (l : list json)
| Messages (l : list json)
| NoShape.

Definition shape_of (d : dict) : shape :=
  match Dict.lookup d (py "completion") with
  | Some c => Completion c
  | None =>
    match Dict.lookup d (py "content") with
    | Some (JList l) => Content l
    | _ =>
      match Dict.lookup d (py "results") with
      | Some (JList l) => Results l
      | _ =>
        match Dict.lookup d (py "messages") with
        | Some (JList l) => Messages l
        | _ => NoShape
        end
      end
    end
  end.

(* ================================================================== *)
(** * A scripted platform for concrete runs *)
(* ================================================================== *)

Module Scripted.

(** Counters of the calls made so far. *)
Record Counters : Type := {
  invocations : nat;
  puts : nat;
  publishes : nat;
  ticks : nat
}.

Definition zero : Counters :=
  {| invocations := 0; puts := 0; publishes := 0; ticks := 0 |}.

(** A platform whose collaborators answer the n-th call from a script. *)
Definition platform (model : pystr)
    (invoke_script : nat -> result pystr)
    (put_script publish_script : nat -> option exn) : Platform :=
  {| World := Counters;
     datetime := nat;
     MODEL_ID := model;
     ENV := py "Hackathon";
     now := fun w =>
       ({| invocations := invocations w; puts := puts w;
           publishes := publishes w; ticks := S (ticks w) |}, ticks w);
     strftime_us := fun t => repeat 49 t;
     isoformat := fun t => repeat 49 t;
     invoke_model := fun w _ _ =>
       ({| invocations := S (invocations w); puts := puts w;
           publishes := publishes w; ticks := ticks w |},
        invoke_script (invocations w));
     put_item := fun w _ =>
       ({| invocations := invocations w; puts := S (puts w);
           publishes := publishes w; ticks := ticks w |},
        put_script (puts w));
     publish := fun w _ _ =>
       ({| invocations := invocations w; puts := puts w;
           publishes := S (publishes w); ticks := ticks w |},
        publish_script (publishes w));
     format_prompt := fun m => py "Analyze: " ++ match m with JStr s => s | _ => [] end;
     json_dumps := fun _ => py "<json>";
     json_dumps_indent2 := fun _ => py "<json>";
     repr := fun _ => py "<repr>";
     exn_str := fun e =>
       match e with
       | ExternalError d => d
       | _ => py "error"
       end |}.

(** The classification text of section 8. *)
Definition sample : pystr :=
  pyq "{'summary':'s','is_real_threat':true,'action_type':'AI_HANDLED','ai_handling_message':'m','human_guidance_message':''}".

Definition sample_record : Classification :=
  {| ai_summary := JStr (py "s");
     is_real_threat := JBool true;
     action_type := JStr (py "AI_HANDLED");
     ai_handling_message := JStr (py "m");
     human_guidance_message := JStr [] |}.

Definition alert_line : pystr :=
  pyq "{'Severity':'High','Source':'IDS','Message':'Port scan'}" ++ [10].



Definition always_ok (n : nat) : option exn := None.

(** The first call fails, the later ones succeed. *)
Definition first_fails (n : nat) : option exn :=
  match n with
  | O => Some (ExternalError (py "ProvisionedThroughputExceededException"))
  | _ => None
  end.

(** The handler state before the first line. *)
Definition start (P : Platform) (w : World P) : Driver.Loop P :=
  {| Driver.world := w; Driver.trace := [];
     Driver.processed_alerts_summary := [] |}.


(** The model always answers with the sample; the first table write
    fails. *)
Definition first_write_fails : Platform :=
  platform Spec.default_model (fun _ => inr sample) first_fails always_ok.

(** The model answers with the given text. *)
Definition answering (raw : pystr) : Platform :=
  platform Spec.default_model (fun _ => inr raw) always_ok always_ok.



End Scripted.

(** Number of persistence and notification attempts in a trace. *)
Definition is_put (e : event) : bool :=
  match e with EPut _ => true | _ => false end.
Definition is_publish (e : event) : bool :=
  match e with EPublish _ _ => true | _ => false end.
Definition count_puts (t : list event) : nat := List.length (filter is_put t).
Definition count_publishes (t : list event) : nat :=
  List.length (filter is_publish t).

(* ================================================================== *)
(** * Further definitions for the properties of the whole handler *)
(* ================================================================== *)

Module Coverage.

(** Number of model invocations in a trace. *)
Definition is_invoke (e : event) : bool :=
  match e with EInvoke _ _ => true | _ => false end.
Definition count_invokes (t : list event) : nat :=
  List.length (filter is_invoke t).

(** What [open] and the iteration of lines 41-42 deliver: the lines
    read, and the exception that ends the reading when the file cannot
    be opened or cannot be decoded to its end. *)
Record Reading : Type := {
  lines_read : list pystr;
  read_error : option exn
}.

(** The number of containers around the innermost value; 0 for a
    scalar. *)
Fixpoint json_depth (v : json) : nat :=
  match v with
  | JList l => S (fold_right (fun x a => Nat.max (json_depth x) a) 0%nat l)
  | JDict d =>
      S (fold_right (fun kv a => Nat.max (json_depth (snd kv)) a) 0%nat d)
  | _ => 0%nat
  end.

(** [json.dumps(v)] called from the handler's frame enters every
    container of [v] through [Py_EnterRecursiveCall]; with the defaults
    of [Decoder.recursion_budget] it raises RecursionError on a value
    nested deeper than 994. *)
Definition dumps_budget : nat := 994.
Definition dumps_raises (v : json) : bool :=
  (dumps_budget <? json_depth v)%nat.

(** [str(n)] for a length. *)
Fixpoint decimal_digits (fuel : nat) (n : N) (acc : pystr) : pystr :=
  match fuel with
  | O => acc
  | S f =>
      let acc' := (48 + n mod 10) :: acc in
      if n / 10 =? 0 then acc' else decimal_digits f (n / 10) acc'
  end.
Definition decimal (n : nat) : pystr :=
  decimal_digits (S n) (N.of_nat n) [].

(** The dictionary that line 319 serializes. *)
Definition entry_json (e : SummaryEntry) : json :=
  JDict [(py "AlertID", JStr (entry_AlertID e));
         (py "summary", entry_summary e);
         (py "action_type", entry_action_type e);
         (py "is_real_threat", entry_is_real_threat e)].

Definition response_body (entries : list SummaryEntry) : json :=
  JDict [(py "message",
          JStr (py "Successfully processed " ++ decimal (List.length entries)
                ++ py " alerts from 'alerts_sample.txt'."));
         (py "processed_alerts", JList (map entry_json entries))].

(** [lambda_handler] with the reading of the file and the serialization
    of the response made explicit; [None] when the file does not exist.
    Lines 41-42 and 317-323 stand outside every [try]: an exception of
    the reading leaves the handler after the lines read before it have
    been processed, and so does the RecursionError of [json.dumps] on a
    response nested too deep; no response is returned then.
    [Driver.lambda_handler] is the case of a file read to its end and a
    response that is serialized. *)
Definition lambda_handler_io (P : Platform) (w : World P)
    (file : option Reading) : Driver.Loop P * result Driver.Response :=
  match file with
  | None =>
      let '(st, response) := Driver.lambda_handler P w None in
      (st, inr response)
  | Some reading =>
      let '(st, response) :=
        Driver.lambda_handler P w (Some (lines_read reading)) in
      match read_error reading with
      | Some e => (st, inl e)
      | None =>
          if dumps_raises (response_body (Driver.processed_alerts response))
          then (st, inl RecursionError)
          else (st, inr response)
      end
  end.

(** Number of lines read that hold a JSON object; none when the file is
    missing. *)
Definition alert_line_count (file : option Reading) : nat :=
  match file with
  | Some reading =>
      List.length (filter Driver.is_alert_line (lines_read reading))
  | None => 0%nat
  end.

(** [d.get(k, default)] on a dictionary. *)
Definition get_or (d : dict) (k : string) (default : json) : json :=
  match Dict.lookup d (py k) with
  | Some x => x
  | None => default
  end.


(** Text without control characters, which a strict JSON string may hold
    once quote and backslash are escaped. *)
Definition printable (t : pystr) : bool := forallb (fun c => 32 <=? c) t.

(** The escaping of one character in [Spec.json_string]. *)
Definition esc (c : N) : pystr :=
  if (c =? c_quote) || (c =? c_backslash) then [c_backslash; c] else [c].

(** The prefixes the adapter tests (lines 108-137). *)
Definition prefixes : list pystr := flat_map fst Spec.family_table.

(** The action types that have a notification template of their own
    (lines 278-291). *)
Definition known_actions : list pystr :=
  [py "AI_HANDLED"; py "HUMAN_REQUIRED"; py "FALSE_POSITIVE";
   py "NON_ADDRESSABLE"].


(** A value that is not a dictionary. *)
Definition not_dict (v : json) : bool :=
  match v with JDict _ => false | _ => true end.

End Coverage.

Unset Implicit Arguments.

(* ================================================================== *)
(** * Properties of the request adapter *)
(* ================================================================== *)

Section AdapterFacts.

Import Adapter Spec.

Ltac split_prefixes model :=
  destruct (startswith model (py "anthropic.claude-3"));
  [| destruct (startswith model (py "anthropic.claude-v2"));
     [| destruct (startswith model (py "anthropic.claude-instant"));
        [| destruct (startswith model (py "amazon.titan-text"));
           [| destruct (startswith model (py "us.amazon.nova-lite")) ]]]].

(** The if-chain of the adapter is the first-match dispatch over the
    prefix table. *)
Lemma family_of_chain (model : pystr) :
  family_of model =
  if startswith model (py "anthropic.claude-3") then Claude3
  else if startswith model (py "anthropic.claude-v2")
          || startswith model (py "anthropic.claude-instant")
  then ClaudeLegacy
  else if startswith model (py "amazon.titan-text") then TitanText
  else if startswith model (py "us.amazon.nova-lite") then NovaLite
  else Fallback.
Proof.
  unfold family_of, family_table, first_match, existsb.
  split_prefixes model; reflexivity.
Qed.

(** C4: for every model identifier and prompt the adapter returns a
    request dictionary (it is a total function, nothing is raised); the
    family is the one of the first matching prefix in the order claude-3,
    claude-v2 or claude-instant, titan-text, nova-lite; the payload has
    exactly the top-level keys of that branch, among them every key that
    section 4.2 requires of the family, its configuration block holds the
    keys required there, and the prompt sits at the family's place (for
    the chat shapes, messages[0].content[0].text is the prompt); an
    identifier that no prefix matches gets the chat-style fallback payload
    with its inferenceConfig block, and only then is the warning
    logged. *)
Theorem adapter_payload_by_family (model prompt : pystr) :
  let f := family_of model in
  let body := fst (build_body model prompt) in
  (exists d,
      body = JDict d
      /\ Dict.keys d = sent_keys f
      /\ forallb (Dict.mem d) (required_keys f) = true)
  /\ (exists cfg,
         at_path body (config_path f) = Some (JDict cfg)
         /\ forallb (Dict.mem cfg) (config_keys f) = true)
  /\ at_path body (prompt_path f) = Some (prompt_value f prompt)
  /\ snd (build_body model prompt)
     = match f with Fallback => true | _ => false end.
Proof.
  cbv zeta. rewrite family_of_chain. unfold build_body.
  split_prefixes model; cbn [orb fst snd];
    (split; [eexists; split; [reflexivity | split; reflexivity]
            | split; [eexists; split; reflexivity
                     | split; reflexivity]]).
Qed.

(** C10: whatever the prompt, the payload of the nova-lite family (the
    family of the default model identifier) asks for 150 tokens at
    temperature 0.7, and the payload of every other family, the fallback
    included, asks for 500 tokens at temperature 0.2; 150 is less than
    500. *)
Theorem default_family_smaller_budget (model prompt : pystr) :
  let f := family_of model in
  let body := fst (build_body model prompt) in
  family_of default_model = NovaLite
  /\ at_path body (max_tokens_path f)
     = Some (JInt (match f with NovaLite => 150 | _ => 500 end))
  /\ at_path body (temperature_path f)
     = Some (match f with NovaLite => f07 | _ => f02 end)
  /\ (150 < 500)%Z.
Proof.
  cbv zeta. split; [reflexivity |].
  rewrite family_of_chain. unfold build_body.
  split_prefixes model; cbn [orb fst snd];
    (split; [reflexivity | split; [reflexivity | lia]]).
Qed.

End AdapterFacts.

(* ================================================================== *)
(** * Properties of the extractor on given inputs *)
(* ================================================================== *)

Section ExtractorExamples.

Import Extractor Spec Scripted.

(** C1: the classification text of section 8 is extracted to the record
    with its five values, bare and inside each of the four envelopes. *)
Theorem sample_extracts_through_every_envelope :
  classify sample = inr sample_record
  /\ classify (envelope_completion sample) = inr sample_record
  /\ classify (envelope_content sample) = inr sample_record
  /\ classify (envelope_results sample) = inr sample_record
  /\ classify (envelope_messages sample) = inr sample_record.
Proof. repeat split; vm_compute; reflexivity. Qed.

(** Against C5: a Stage-A object whose content key holds an empty
    sequence matches no shape of section 4.4, so the specification takes
    the object itself as the classification; the handler enters the
    content branch and raises IndexError. *)
Lemma empty_content_does_not_fall_through :
  let d := [(py "content", JList []); (py "summary", JStr (py "x"))] in
  Spec.stage_b d = inr (JDict d)
  /\ Extractor.stage_b (JDict d) = inl IndexError
  /\ Extractor.stage_b (JDict d) <> Spec.stage_b d.
Proof. repeat split; try (vm_compute; reflexivity). vm_compute. discriminate. Qed.

(** Against C2: the completion envelope around a text that is not JSON
    makes the extraction raise; no record of documented defaults comes
    out of it. *)
Lemma bad_inner_text_raises :
  let raw := envelope_completion (py "not json") in
  (exists d, snd (stage_a [] raw) = inr (JDict d)
             /\ Spec.unwrap d = Some (JStr (py "not json")))
  /\ Decoder.decode (py "not json") = None
  /\ classify raw = inl JSONDecodeError
  /\ classify raw <> inr unknown_defaults.
Proof.
  split; [eexists; split; vm_compute; reflexivity |].
  split; [vm_compute; reflexivity |].
  split; [vm_compute; reflexivity | vm_compute; discriminate].
Qed.

End ExtractorExamples.

(* ================================================================== *)
(** * String lemmas *)
(* ================================================================== *)

Section StringFacts.

Lemma str_eqb_refl (a : pystr) : str_eqb a a = true.
Proof. induction a; simpl; [reflexivity | now rewrite N.eqb_refl]. Qed.

Lemma str_eqb_eq (a b : pystr) : str_eqb a b = true <-> a = b.
Proof.
  split; [| intros ->; apply str_eqb_refl].
  revert b; induction a as [| x a IH]; intros [| y b]; simpl; try discriminate;
    [reflexivity |].
  intros H. apply andb_true_iff in H as [Hx Hr].
  apply N.eqb_eq in Hx. f_equal; auto.
Qed.

Lemma startswith_nil (s : pystr) : startswith s [] = true.
Proof. destruct s; reflexivity. Qed.

Lemma startswith_cons1 (x c : N) (s : pystr) :
  startswith (x :: s) [c] = (c =? x).
Proof. simpl. apply andb_true_r. Qed.

(** [find] returns the position of the first occurrence. *)
Lemma find_spec (s : pystr) (c : N) :
  (find s c = (-1)%Z /\ ~ In c s)
  \/ (exists a b, s = a ++ c :: b /\ ~ In c a
                  /\ find s c = Z.of_nat (List.length a)).
Proof.
  induction s as [| x s IH]; simpl; [left; auto |].
  destruct (N.eqb_spec x c) as [-> | Hne].
  - right. exists [], s. simpl. auto.
  - destruct IH as [[Hf Hn] | (a & b & -> & Hn & Hf)].
    + left. rewrite Hf. simpl. split; [reflexivity | intros [H | H]; auto].
    + right. exists (x :: a), b. rewrite Hf.
      destruct (Z.ltb_spec (Z.of_nat (List.length a)) 0); [lia |].
      simpl List.length. split; [reflexivity |].
      split; [intros [H1 | H1]; auto | lia].
Qed.

(** [rfind] returns the position of the last occurrence. *)
Lemma rfind_spec (s : pystr) (c : N) :
  (rfind s c = (-1)%Z /\ ~ In c s)
  \/ (exists a b, s = a ++ c :: b /\ ~ In c b
                  /\ rfind s c = Z.of_nat (List.length a)).
Proof.
  unfold rfind. destruct (find_spec (rev s) c) as [[Hf Hn] | (a & b & E & Hn & Hf)].
  - left. rewrite Hf. simpl. split; [reflexivity |].
    intros H. apply Hn. now apply in_rev in H.
  - right. exists (rev b), (rev a).
    assert (Es : s = rev b ++ c :: rev a).
    { rewrite <- (rev_involutive s), E, rev_app_distr. simpl.
      now rewrite <- app_assoc. }
    split; [exact Es |]. split; [now rewrite <- in_rev |].
    rewrite Hf. destruct (Z.ltb_spec (Z.of_nat (List.length a)) 0); [lia |].
    rewrite Es at 1. rewrite length_app. simpl List.length.
    rewrite !length_rev. lia.
Qed.




Lemma forallb_rev_true (f : N -> bool) (l : pystr) :
  forallb f l = true -> forallb f (rev l) = true.
Proof.
  rewrite !forallb_forall. intros H x Hx. apply H. now apply in_rev.
Qed.

Lemma lstrip_blank (l s : pystr) :
  forallb isspace l = true -> lstrip (l ++ s) = lstrip s.
Proof.
  induction l as [| x l IH]; simpl; [reflexivity |].
  intros H. apply andb_true_iff in H as [Hx Hl]. now rewrite Hx, IH.
Qed.

Lemma lstrip_keeps (a r : pystr) (y : N) :
  isspace y = false -> exists v, lstrip (a ++ y :: r) = v ++ y :: r.
Proof.
  intros Hy. induction a as [| x a [v IH]]; simpl.
  - rewrite Hy. now exists [].
  - destruct (isspace x); [now exists v | now exists (x :: a)].
Qed.

(** The stripped text begins with the first character that is not
    whitespace. *)
Lemma strip_head (l u : pystr) (x : N) :
  forallb isspace l = true -> isspace x = false ->
  exists v, strip (l ++ x :: u) = x :: v.
Proof.
  intros Hl Hx. unfold strip, rstrip. rewrite lstrip_blank by exact Hl.
  simpl lstrip. rewrite Hx. simpl rev.
  destruct (lstrip_keeps (rev u) [] x Hx) as [v Hv]. rewrite Hv.
  exists (rev v). rewrite rev_app_distr. reflexivity.
Qed.

(** The stripped text ends with the last character that is not
    whitespace. *)
Lemma strip_last (u r : pystr) (y : N) :
  forallb isspace r = true -> isspace y = false ->
  exists v, strip (u ++ y :: r) = v ++ [y].
Proof.
  intros Hr Hy. unfold strip, rstrip.
  destruct (lstrip_keeps u r y Hy) as [v ->].
  exists v. rewrite rev_app_distr. simpl rev. rewrite <- app_assoc.
  rewrite lstrip_blank by (now apply forallb_rev_true).
  simpl lstrip. rewrite Hy. simpl rev. now rewrite rev_involutive.
Qed.

Lemma endswith_snoc1 (v : pystr) (y c : N) :
  endswith (v ++ [y]) [c] = (c =? y).
Proof.
  unfold endswith. rewrite rev_app_distr. simpl rev. simpl app.
  apply startswith_cons1.
Qed.

End StringFacts.

(* ================================================================== *)
(** * Properties of the extractor *)
(* ================================================================== *)

Section ExtractorFacts.

Import Extractor.

Lemma decode_empty : Decoder.decode [] = None.
Proof. reflexivity. Qed.

(** [Decoder.decode] and [Py.loads] on a [str] tell the same. *)
Lemma loads_of_decode (s : pystr) (v : json) :
  Decoder.decode s = Some v -> Py.loads (JStr s) = inr v.
Proof.
  unfold Decoder.decode, Py.loads.
  destruct (Decoder.loads_str s); [discriminate | congruence].
Qed.

Lemma decode_of_loads (s : pystr) (v : json) :
  Py.loads (JStr s) = inr v -> Decoder.decode s = Some v.
Proof. unfold Decoder.decode, Py.loads. now intros ->. Qed.

Lemma loads_of_decode_none (s : pystr) :
  Decoder.decode s = None -> exists e, Py.loads (JStr s) = inl e.
Proof.
  unfold Decoder.decode, Py.loads.
  destruct (Decoder.loads_str s); [eauto | discriminate].
Qed.

Lemma loads_empty : Py.loads (JStr []) = inl JSONDecodeError.
Proof. reflexivity. Qed.

Lemma decode_none_of_loads (s : pystr) (e : exn) :
  Py.loads (JStr s) = inl e -> Decoder.decode s = None.
Proof. unfold Decoder.decode, Py.loads. now intros ->. Qed.

Lemma classify_extract (alert_id raw : pystr) :
  snd (extract alert_id raw) = classify raw.
Proof.
  unfold classify, extract, stage_a.
  destruct (looks_bare raw).
  - destruct (Py.loads (JStr raw)); reflexivity.
  - destruct (bracket_parse raw) as [e | v]; [| reflexivity].
    destruct (is_JSONDecodeError e || is_ValueError e); reflexivity.
Qed.


(** Stage B on a dictionary, branch by branch. *)
Lemma stage_b_by_shape (d : dict) :
  stage_b (JDict d) =
  match shape_of d with
  | Completion c => Py.loads c
  | Content l =>
      first <- Py.getitem0 (JList l) ;;
      text_content <- Py.get first (py "text") (JStr []) ;;
      Py.loads text_content
  | Results l =>
      first <- Py.getitem0 (JList l) ;;
      text_content <- Py.get first (py "outputText") (JStr []) ;;
      Py.loads text_content
  | Messages l =>
      first <- Py.getitem0 (JList l) ;;
      content <- Py.get first (py "content") (JList [JDict []]) ;;
      block <- Py.getitem0 content ;;
      text_content <- Py.get block (py "text") (JStr []) ;;
      Py.loads text_content
  | NoShape => inr (JDict d)
  end.
Proof.
  unfold stage_b, shape_of, Py.contains, Py.getitem, Dict.mem.
  destruct (Dict.lookup d (py "completion")) as [c |]; [reflexivity |].
  cbn [bind].
  destruct (Dict.lookup d (py "content")) as [[| | | | | l |] |]; cbn [bind Py.is_list];
    try reflexivity;
  (destruct (Dict.lookup d (py "results")) as [[| | | | | l' |] |]; cbn [bind Py.is_list];
    try reflexivity;
  (destruct (Dict.lookup d (py "messages")) as [[| | | | | l'' |] |]; cbn [bind Py.is_list];
    reflexivity)).
Qed.

(** C5, as the handler has it: on a Stage-A dictionary the four shapes
    are tried in the order completion, content, results, messages; the
    first is matched by the presence of its key, the other three by a key
    bound to a list of any length; an unmatched shape falls through to
    the next, and a dictionary that matches none is itself the
    classification JSON.  A matched list is indexed at 0 and its first
    element read with [get], so an empty list or an element without the
    text field raises instead of falling through. *)
Theorem stage_b_tries_shapes_in_order (d : dict) :
  stage_b (JDict d) =
  match shape_of d with
  | Completion c => Py.loads c
  | Content l =>
      first <- Py.getitem0 (JList l) ;;
      text_content <- Py.get first (py "text") (JStr []) ;;
      Py.loads text_content
  | Results l =>
      first <- Py.getitem0 (JList l) ;;
      text_content <- Py.get first (py "outputText") (JStr []) ;;
      Py.loads text_content
  | Messages l =>
      first <- Py.getitem0 (JList l) ;;
      content <- Py.get first (py "content") (JList [JDict []]) ;;
      block <- Py.getitem0 content ;;
      text_content <- Py.get block (py "text") (JStr []) ;;
      Py.loads text_content
  | NoShape => inr (JDict d)
  end.
Proof. exact (stage_b_by_shape d). Qed.

Lemma loads_undecodable (v : json) :
  Spec.undecodable v -> exists e, Py.loads v = inl e.
Proof.
  intros H. destruct v; simpl; eauto.
  apply (loads_of_decode_none s), H. reflexivity.
Qed.

Lemma get_text_raises (x : json) (field : string) :
  (forall e v, x = JDict e -> Dict.lookup e (py field) = Some v ->
               Spec.undecodable v) ->
  exists e, (text_content <- Py.get x (py field) (JStr []) ;;
             Py.loads text_content) = inl e.
Proof.
  intros H. destruct x; simpl; eauto.
  destruct (Dict.lookup d (py field)) as [v |] eqn:E; cbn [bind].
  - apply loads_undecodable. eapply H; eauto.
  - rewrite loads_empty. eauto.
Qed.

Lemma first_text_raises (l : list json) (field : string) :
  (forall v, Spec.first_field field (JList l) = Some v -> Spec.undecodable v) ->
  exists e, (first <- Py.getitem0 (JList l) ;;
             text_content <- Py.get first (py field) (JStr []) ;;
             Py.loads text_content) = inl e.
Proof.
  intros H. destruct l as [| x l]; simpl; eauto.
  apply get_text_raises. intros e v -> Hv. apply H. exact Hv.
Qed.

Lemma messages_text_raises (l : list json) :
  (forall v, Spec.opt_bind (Spec.first_field "content" (JList l))
               (Spec.first_field "text") = Some v -> Spec.undecodable v) ->
  exists e, (first <- Py.getitem0 (JList l) ;;
             content <- Py.get first (py "content") (JList [JDict []]) ;;
             block <- Py.getitem0 content ;;
             text_content <- Py.get block (py "text") (JStr []) ;;
             Py.loads text_content) = inl e.
Proof.
  intros H. destruct l as [| x l]; simpl; eauto.
  destruct x; simpl; eauto.
  simpl in H.
  destruct (Dict.lookup d (py "content")) as [cv |] eqn:E; simpl.
  - simpl in H. destruct cv as [| | | | [| c s] | l' | d']; simpl; eauto.
    apply (first_text_raises l' "text"). exact H.
  - eexists. reflexivity.
Qed.

(** Whenever the Stage-A dictionary matches a shape of section 4.4 whose
    inner text does not decode, Stage B raises. *)
Lemma stage_b_bad_text_raises (d : dict) (t : pystr) :
  Spec.unwrap d = Some (JStr t) ->
  Decoder.decode t = None ->
  exists e, stage_b (JDict d) = inl e.
Proof.
  intros Hu Ht. rewrite stage_b_by_shape.
  assert (Hbad : forall v, Some v = Some (JStr t) -> Spec.undecodable v).
  { intros v Hv t' ->. injection Hv as ->. exact Ht. }
  unfold Spec.unwrap, shape_of in *.
  destruct (Dict.lookup d (py "completion")) as [c |].
  { apply loads_undecodable, Hbad, Hu. }
  destruct (Dict.lookup d (py "content")) as [[| | | | | l |] |];
    cbn [Spec.opt_bind] in Hu;
    first [ apply first_text_raises; intros v Hv; rewrite Hv in Hu;
            apply Hbad; exact Hu
          | cbn [Spec.first_field] in Hu ];
  (destruct (Dict.lookup d (py "results")) as [[| | | | | l' |] |];
    cbn [Spec.opt_bind] in Hu;
    first [ apply first_text_raises; intros v Hv; rewrite Hv in Hu;
            apply Hbad; exact Hu
          | cbn [Spec.first_field] in Hu ];
  (destruct (Dict.lookup d (py "messages")) as [[| | | | | l'' |] |];
    cbn [Spec.opt_bind] in Hu;
    first [ apply messages_text_raises; intros v Hv; rewrite Hv in Hu;
            apply Hbad; exact Hu
          | cbn [Spec.first_field Spec.opt_bind] in Hu; discriminate Hu ])).
Qed.

End ExtractorFacts.

Section BracketFacts.

Import Extractor Spec.

Lemma nth_error_middle (a b : pystr) (x : N) :
  nth_error (a ++ x :: b) (List.length a) = Some x.
Proof. rewrite nth_error_app2, Nat.sub_diag by lia. reflexivity. Qed.

Lemma lstrip_suffix (s : pystr) : exists l, s = l ++ lstrip s.
Proof.
  induction s as [| x s [l IH]]; simpl; [now exists [] |].
  destruct (isspace x); [| now exists []].
  exists (x :: l). simpl. now f_equal.
Qed.

Lemma strip_infix (s : pystr) : exists l r, s = l ++ strip s ++ r.
Proof.
  destruct (lstrip_suffix s) as [l Hl].
  destruct (lstrip_suffix (rev (lstrip s))) as [r Hr].
  exists l, (rev r). unfold strip, rstrip.
  rewrite <- rev_app_distr, <- Hr, rev_involutive. exact Hl.
Qed.

Lemma startswith1_inv (s : pystr) (c : N) :
  startswith s [c] = true -> exists m, s = c :: m.
Proof.
  destruct s as [| x s]; [discriminate |].
  rewrite startswith_cons1. intros H. apply N.eqb_eq in H. subst. eauto.
Qed.

Lemma endswith1_inv (s : pystr) (c : N) :
  endswith s [c] = true -> exists m, s = m ++ [c].
Proof.
  unfold endswith. simpl rev. intros H.
  apply startswith1_inv in H as [m Hm]. exists (rev m).
  rewrite <- (rev_involutive s), Hm. reflexivity.
Qed.

(** A text that passes the direct-parse test holds a bracket pair. *)
Lemma looks_bare_pair (raw : pystr) :
  looks_bare raw = true -> has_bracket_pair raw.
Proof.
  unfold looks_bare. intros H. apply andb_true_iff in H as [Hs He].
  destruct (strip_infix raw) as (l & r & Hraw).
  apply startswith1_inv in Hs as [m Hm].
  apply endswith1_inv in He as [m' Hm'].
  rewrite Hm in Hm'. destruct m' as [| y m'].
  - simpl in Hm'. injection Hm' as Hc _. discriminate Hc.
  - simpl in Hm'. injection Hm' as <- ->.
    exists (List.length l), (List.length (l ++ c_lbrace :: m')).
    rewrite Hraw, Hm. split; [rewrite length_app; simpl; lia |].
    split; [apply nth_error_middle |].
    replace (l ++ (c_lbrace :: m' ++ [c_rbrace]) ++ r)
      with ((l ++ c_lbrace :: m') ++ c_rbrace :: r)
      by (rewrite <- !app_assoc; simpl; rewrite <- app_assoc; reflexivity).
    apply nth_error_middle.
Qed.

(** So does a text whose first opening brace precedes its last closing
    brace. *)
Lemma bracket_parse_pair (raw : pystr) :
  ~ has_bracket_pair raw -> bracket_parse raw = inl ValueError.
Proof.
  intros Hn. unfold bracket_parse.
  destruct (find_spec raw c_lbrace) as [[-> _] | (a & b & E & _ & ->)];
    [reflexivity |].
  destruct (rfind_spec raw c_rbrace) as [[-> _] | (a' & b' & E' & _ & ->)].
  { now rewrite andb_false_r. }
  destruct (Z.gtb_spec (Z.of_nat (List.length a')) (Z.of_nat (List.length a)))
    as [Hgt | _]; [| now rewrite andb_false_r].
  exfalso. apply Hn. exists (List.length a), (List.length a').
  split; [lia |]. split.
  - rewrite E. apply nth_error_middle.
  - rewrite E'. apply nth_error_middle.
Qed.

(** A bracket pair lies between the first opening and the last closing
    brace. *)
Lemma pair_between_find_rfind (raw : pystr) :
  has_bracket_pair raw ->
  (0 <= find raw c_lbrace /\ find raw c_lbrace < rfind raw c_rbrace)%Z.
Proof.
  intros (i & j & Hij & Hi & Hj).
  destruct (find_spec raw c_lbrace) as [[_ Hn] | (a & b & E & Hn & ->)].
  { exfalso. apply Hn. eapply nth_error_In, Hi. }
  destruct (rfind_spec raw c_rbrace) as [[_ Hn'] | (a' & b' & E' & Hn' & ->)].
  { exfalso. apply Hn'. eapply nth_error_In, Hj. }
  assert (List.length a <= i)%nat.
  { destruct (Nat.le_gt_cases (List.length a) i) as [| Hlt]; [assumption |].
    exfalso. apply Hn. rewrite E, nth_error_app1 in Hi by exact Hlt.
    eapply nth_error_In, Hi. }
  assert (j <= List.length a')%nat.
  { destruct (Nat.le_gt_cases j (List.length a')) as [| Hlt]; [assumption |].
    exfalso. apply Hn'. rewrite E', nth_error_app2 in Hj by lia.
    destruct (j - List.length a')%nat as [| k] eqn:Ek; [lia |].
    simpl in Hj. eapply nth_error_In, Hj. }
  lia.
Qed.

(** C6: a raw response without a pair of curly braces is extracted to
    the record of documented defaults (summary No AI summary generated.,
    is_real_threat false, action_type UNKNOWN, both messages empty); the
    extraction logs the failed recovery and the empty Stage-A result and
    raises nothing. *)
Theorem no_bracket_pair_gives_unknown_defaults (alert_id raw : pystr) :
  ~ has_bracket_pair raw ->
  extract alert_id raw
  = ([Log_extract_failed alert_id ValueError raw;
      Log_bedrock_output alert_id (JDict [])],
     inr unknown_defaults)
  /\ classify raw = inr unknown_defaults.
Proof.
  intros Hn.
  assert (E : extract alert_id raw
              = ([Log_extract_failed alert_id ValueError raw;
                  Log_bedrock_output alert_id (JDict [])],
                 inr unknown_defaults)).
  { unfold extract, stage_a.
    destruct (looks_bare raw) eqn:Hb;
      [exfalso; apply Hn, looks_bare_pair, Hb |].
    rewrite (bracket_parse_pair raw Hn). reflexivity. }
  split; [exact E |].
  rewrite <- (classify_extract alert_id raw), E. reflexivity.
Qed.

Lemma no_bracket_pair_witness :
  ~ has_bracket_pair (py "I cannot help with that }{ request.")
  /\ classify (py "I cannot help with that }{ request.") = inr unknown_defaults.
Proof.
  assert (Hn : ~ has_bracket_pair (py "I cannot help with that }{ request.")).
  { intros H. apply pair_between_find_rfind in H. vm_compute in H.
    destruct H as [_ H]. discriminate H. }
  split; [exact Hn |].
  exact (proj2 (no_bracket_pair_gives_unknown_defaults [] _ Hn)).
Defined.

End BracketFacts.

(* ================================================================== *)
(** * Properties of the pipeline driver *)
(* ================================================================== *)

Section DriverFacts.

Import Driver Extractor.

Variable P : Platform.


Lemma analyse_extract_raises (w w1 : World P) (alert_id raw : pystr)
    (body : json) (e : exn) :
  invoke_model P w (MODEL_ID P) body = (w1, inr raw) ->
  classify raw = inl e ->
  analyse P w alert_id body
  = (w1,
     EInvoke (MODEL_ID P) body
       :: map ELog (fst (extract alert_id raw))
       ++ [ELog (Log_analysis_failed alert_id e)],
     failed P e).
Proof.
  intros H Hc. unfold analyse. rewrite H.
  rewrite <- (classify_extract alert_id raw) in Hc.
  destruct (extract alert_id raw) as [logs c]. simpl in Hc. subst c.
  reflexivity.
Qed.


(** C2, as the handler has it: when the Stage-A object matches one of the
    four shapes of section 4.4 and its inner text is not valid JSON, the
    parse failure leaves the extraction as an exception and is caught by
    the handler of the analysis, which finalizes the alert with the
    failure values: summary AI analysis unavailable at this time.,
    is_real_threat false, action_type ERROR_BEDROCK_FAILED, empty
    messages, and the error text as the only metadata. *)
Theorem bad_inner_text_gives_failure_record
    (w w1 : World P) (alert_id raw t : pystr) (body : json) (d : dict) :
  invoke_model P w (MODEL_ID P) body = (w1, inr raw) ->
  snd (stage_a alert_id raw) = inr (JDict d) ->
  Spec.unwrap d = Some (JStr t) ->
  Decoder.decode t = None ->
  exists e,
    classify raw = inl e
    /\ analyse P w alert_id body
       = (w1,
          EInvoke (MODEL_ID P) body
            :: map ELog (fst (extract alert_id raw))
            ++ [ELog (Log_analysis_failed alert_id e)],
          failed P e)
    /\ classification (failed P e)
       = {| ai_summary := JStr (py "AI analysis unavailable at this time.");
            is_real_threat := JBool false;
            action_type := JStr (py "ERROR_BEDROCK_FAILED");
            ai_handling_message := JStr [];
            human_guidance_message := JStr [] |}
    /\ inference_metadata (failed P e) = [(py "error", JStr (exn_str P e))].
Proof.
  intros Hi Ha Hu Ht.
  destruct (stage_b_bad_text_raises d t Hu Ht) as [e He].
  assert (Hc : classify raw = inl e).
  { rewrite <- (classify_extract alert_id raw). unfold extract.
    destruct (stage_a alert_id raw) as [logs a]. simpl in Ha. subst a.
    simpl. rewrite He. reflexivity. }
  exists e. split; [exact Hc |].
  split; [apply analyse_extract_raises; assumption |].
  split; reflexivity.
Qed.

(** C9: a raw response whose trimmed text starts with an opening and
    ends with a closing brace but which [json.loads] rejects is not
    degraded to the record of UNKNOWN defaults.  The exception of the
    direct parse (JSONDecodeError for a text that is not valid JSON)
    leaves the extraction before anything is logged there (the bracket
    retry and its empty-result fallback are not run) and the handler of
    the analysis finalizes the alert with the failure values, action type
    ERROR_BEDROCK_FAILED, and a metadata dictionary whose only key is
    error. *)
Theorem bare_invalid_json_is_inference_failure
    (w w1 : World P) (alert_id raw : pystr) (body : json) (e : exn) :
  invoke_model P w (MODEL_ID P) body = (w1, inr raw) ->
  startswith (strip raw) [c_lbrace] = true ->
  endswith (strip raw) [c_rbrace] = true ->
  Py.loads (JStr raw) = inl e ->
  extract alert_id raw = ([], inl e)
  /\ analyse P w alert_id body
     = (w1,
        [EInvoke (MODEL_ID P) body;
         ELog (Log_analysis_failed alert_id e)],
        failed P e)
  /\ classification (failed P e)
     = {| ai_summary := JStr (py "AI analysis unavailable at this time.");
          is_real_threat := JBool false;
          action_type := JStr (py "ERROR_BEDROCK_FAILED");
          ai_handling_message := JStr [];
          human_guidance_message := JStr [] |}
  /\ classification (failed P e) <> Spec.unknown_defaults
  /\ Dict.keys (inference_metadata (failed P e)) = [py "error"].
Proof.
  intros Hi Hs He Hd.
  assert (E : extract alert_id raw = ([], inl e)).
  { unfold extract, stage_a, looks_bare. rewrite Hs, He. cbn [andb].
    rewrite Hd. reflexivity. }
  split; [exact E |]. split.
  - rewrite (analyse_extract_raises w w1 alert_id raw body e Hi).
    + rewrite E. reflexivity.
    + rewrite <- (classify_extract alert_id raw), E. reflexivity.
  - split; [reflexivity |]. split; [| reflexivity].
    intros H. apply (f_equal ai_summary) in H. vm_compute in H. discriminate H.
Qed.

(** ** The batch *)

Lemma count_puts_app (t u : list event) :
  count_puts (t ++ u) = (count_puts t + count_puts u)%nat.
Proof. unfold count_puts. now rewrite filter_app, length_app. Qed.

Lemma count_publishes_app (t u : list event) :
  count_publishes (t ++ u) = (count_publishes t + count_publishes u)%nat.
Proof. unfold count_publishes. now rewrite filter_app, length_app. Qed.

Lemma count_logs (l : list log) :
  count_puts (map ELog l) = 0%nat /\ count_publishes (map ELog l) = 0%nat.
Proof. induction l; simpl; auto. Qed.

(** The analysis only invokes the model and logs. *)
Lemma analyse_events (w : World P) (alert_id : pystr) (body : json) :
  exists logs,
    snd (fst (analyse P w alert_id body))
    = EInvoke (MODEL_ID P) body :: map ELog logs.
Proof.
  unfold analyse.
  destruct (invoke_model P w (MODEL_ID P) body) as [w1 [e | raw]].
  - now exists [Log_analysis_failed alert_id e].
  - destruct (extract alert_id raw) as [logs [e | c]].
    + exists (logs ++ [Log_analysis_failed alert_id e]).
      simpl. now rewrite map_app.
    + destruct (now P w1). now exists logs.
Qed.

Lemma enrich_unfold (w : World P) (a : Alert) :
  enrich P w a
  = (fst (fst (analyse P w (AlertID a) (request_of P a))),
     warning_of P a ++ snd (fst (analyse P w (AlertID a) (request_of P a))),
     snd (analyse P w (AlertID a) (request_of P a))).
Proof.
  unfold enrich, request_of, warning_of.
  destruct (Adapter.build_body (MODEL_ID P) (format_prompt P (Message a)))
    as [body unknown]. simpl fst. simpl snd.
  destruct (analyse P w (AlertID a) body) as [[w1 evs] f]. reflexivity.
Qed.

Lemma enrich_counts (w : World P) (a : Alert) :
  count_puts (snd (fst (enrich P w a))) = 0%nat
  /\ count_publishes (snd (fst (enrich P w a))) = 0%nat.
Proof.
  rewrite enrich_unfold. simpl.
  destruct (analyse_events w (AlertID a) (request_of P a)) as [logs ->].
  rewrite count_puts_app, count_publishes_app.
  assert (Hw : exists l, warning_of P a = map ELog l).
  { unfold warning_of. destruct (snd _); [now eexists [_] | now exists []]. }
  destruct Hw as [l ->].
  destruct (count_logs l) as [-> ->], (count_logs logs) as [Hc1 Hc2].
  unfold count_puts, count_publishes in *. simpl. auto.
Qed.

(** The delivery always attempts the write, exactly once. *)
Lemma deliver_counts (w : World P) (a : Alert) (f : Finalized) :
  count_puts (snd (fst (deliver P w a f))) = 1%nat.
Proof.
  unfold deliver.
  destruct (put_item P w (item_of P a f)) as [w1 [e |]]; [reflexivity |].
  destruct (publish P w1 _ _) as [w2 [e |]]; reflexivity.
Qed.


Lemma build_alert_line (w : World P) (line : pystr) :
  is_alert_line line = true ->
  exists a, build_alert P w line = (fst (now P (fst (now P w))), inr a).
Proof.
  unfold is_alert_line, build_alert. intros H.
  destruct (Py.loads (JStr (strip line))) as [e | [| | | | | | d]];
    try discriminate H.
  destruct (now P w) as [w1 t1]. simpl Py.get.
  destruct (Dict.lookup d (py "Severity")), (Dict.lookup d (py "Source")),
    (Dict.lookup d (py "Message")); simpl;
    destruct (now P w1) as [w2 t2]; eexists; reflexivity.
Qed.

Lemma try_line_unfold (w w1 : World P) (line : pystr) (a : Alert) :
  build_alert P w line = (w1, inr a) ->
  try_line P w line
  = (fst (fst (deliver P (fst (fst (enrich P w1 a))) a (snd (enrich P w1 a)))),
     snd (fst (enrich P w1 a))
       ++ snd (fst (deliver P (fst (fst (enrich P w1 a))) a
                      (snd (enrich P w1 a)))),
     snd (deliver P (fst (fst (enrich P w1 a))) a (snd (enrich P w1 a)))).
Proof.
  intros H. unfold try_line. rewrite H.
  destruct (enrich P w1 a) as [[w2 evs] f]. simpl.
  destruct (deliver P w2 a f) as [[w3 evs'] r]. reflexivity.
Qed.

Lemma process_line_events (w : World P) (line : pystr) :
  snd (fst (process_line P w line))
  = snd (fst (try_line P w line))
    ++ match snd (try_line P w line) with
       | inr _ => []
       | inl e =>
           [ELog (if is_JSONDecodeError e
                  then Log_malformed_line (strip line) e
                  else Log_unexpected_error (strip line) e)]
       end.
Proof.
  unfold process_line. destruct (try_line P w line) as [[w1 evs] [e | entry]];
    simpl; [| now rewrite app_nil_r].
  destruct (is_JSONDecodeError e); reflexivity.
Qed.

(** Every line that holds an alert gets one write attempt, whatever
    happens to the model call, the write or the publication. *)
Lemma alert_line_one_put (w : World P) (line : pystr) :
  is_alert_line line = true ->
  count_puts (snd (fst (process_line P w line))) = 1%nat.
Proof.
  intros H. destruct (build_alert_line w line H) as [a Ha].
  rewrite process_line_events, (try_line_unfold _ _ _ _ Ha). simpl.
  rewrite !count_puts_app.
  destruct (enrich_counts (fst (now P (fst (now P w)))) a) as [-> _].
  rewrite deliver_counts.
  destruct (snd (deliver P _ a _)); reflexivity.
Qed.

Lemma trace_step (st : Loop P) (line : pystr) :
  trace (step st line)
  = trace st ++ snd (fst (process_line P (world st) line)).
Proof.
  unfold step. destruct (process_line P (world st) line) as [[w evs] r].
  reflexivity.
Qed.


Lemma run_cons (st : Loop P) (line : pystr) (rest : list pystr) :
  run st (line :: rest) = run (step st line) rest.
Proof. reflexivity. Qed.

Lemma run_count_puts (lines : list pystr) (st : Loop P) :
  forallb is_alert_line lines = true ->
  count_puts (trace (run st lines))
  = (count_puts (trace st) + List.length lines)%nat.
Proof.
  revert st. induction lines as [| line rest IH]; intros st H.
  - simpl. lia.
  - simpl in H. apply andb_true_iff in H as [Hl Hr].
    rewrite run_cons, IH by exact Hr.
    rewrite trace_step, count_puts_app, alert_line_one_put by exact Hl.
    simpl List.length. lia.
Qed.

Lemma processed_step (st : Loop P) (line : pystr) :
  processed_alerts_summary (step st line)
  = processed_alerts_summary st
    ++ match snd (process_line P (world st) line) with
       | Some entry => [entry]
       | None => []
       end.
Proof.
  unfold step. destruct (process_line P (world st) line) as [[w evs] r].
  reflexivity.
Qed.

Lemma world_step (st : Loop P) (line : pystr) :
  world (step st line) = fst (fst (process_line P (world st) line)).
Proof.
  unfold step. destruct (process_line P (world st) line) as [[w evs] r].
  reflexivity.
Qed.

Lemma process_line_unfold (w : World P) (line : pystr) :
  process_line P w line
  = (fst (fst (try_line P w line)),
     snd (fst (process_line P w line)),
     match snd (try_line P w line) with
     | inr entry => Some entry
     | inl _ => None
     end).
Proof.
  unfold process_line. destruct (try_line P w line) as [[w1 evs] [e | entry]];
    [| reflexivity].
  destruct (is_JSONDecodeError e); reflexivity.
Qed.




(** C8, as the handler has it: when the table write or the publication
    raises for an alert, the exception leaves the delivery at once (the
    failing call is the last one made for that alert, no summary entry
    is added) and is caught by the handler of the loop, which reports it
    in a log record of level ERROR together with the line and does not
    raise it again; the loop then goes on, and each of the remaining
    alert lines gets its write attempt. *)
Theorem collaborator_failure_is_logged_and_loop_goes_on
    (st : Loop P) (line : pystr) (rest : list pystr)
    (a : Alert) (w1 w2 w3 : World P) (evs : list event) (f : Finalized)
    (e : exn) :
  build_alert P (world st) line = (w1, inr a) ->
  enrich P w1 a = (w2, evs, f) ->
  (put_item P w2 (item_of P a f) = (w3, Some e)
   \/ exists w',
        put_item P w2 (item_of P a f) = (w', None)
        /\ publish P w' (subject_of P a (classification f))
             (message_of P a (classification f)) = (w3, Some e)) ->
  forallb is_alert_line rest = true ->
  exists (attempts : list event) (l : log),
    (attempts = [EPut (item_of P a f)]
     \/ attempts = [EPut (item_of P a f);
                    EPublish (subject_of P a (classification f))
                             (message_of P a (classification f))])
    /\ (l = Log_malformed_line (strip line) e
        \/ l = Log_unexpected_error (strip line) e)
    /\ log_level l = ERROR
    /\ step st line
       = {| world := w3;
            trace := trace st ++ evs ++ attempts ++ [ELog l];
            processed_alerts_summary := processed_alerts_summary st |}
    /\ run st (line :: rest) = run (step st line) rest
    /\ count_puts (trace (run st (line :: rest)))
       = (count_puts (trace (step st line)) + List.length rest)%nat.
Proof.
  intros Hb He Hfail Hrest.
  assert (Hd : exists attempts,
             deliver P w2 a f = (w3, attempts, inl e)
             /\ (attempts = [EPut (item_of P a f)]
                 \/ attempts
                    = [EPut (item_of P a f);
                       EPublish (subject_of P a (classification f))
                                (message_of P a (classification f))])).
  { unfold deliver. destruct Hfail as [H | (w' & H & H')].
    - rewrite H. eexists. split; [reflexivity | now left].
    - rewrite H, H'. eexists. split; [reflexivity | now right]. }
  destruct Hd as (attempts & Hd & Hhd).
  exists attempts,
    (if is_JSONDecodeError e then Log_malformed_line (strip line) e
     else Log_unexpected_error (strip line) e).
  split; [exact Hhd |].
  split; [destruct (is_JSONDecodeError e); auto |].
  split; [destruct (is_JSONDecodeError e); reflexivity |].
  split.
  - unfold step, process_line, try_line. rewrite Hb, He, Hd.
    destruct (is_JSONDecodeError e); cbn;
      rewrite <- !app_assoc, app_nil_r; reflexivity.
  - split; [apply run_cons |].
    rewrite run_cons. apply run_count_puts, Hrest.
Qed.

End DriverFacts.

(* ================================================================== *)
(** * Prose around a JSON object *)
(* ================================================================== *)

Section ProseFacts.

Import Extractor Spec.






(** Whitespace around a braced text does not hide it from the
    direct-parse test. *)
Lemma looks_bare_padded (l j r : pystr) :
  braced j -> blank l = true -> blank r = true ->
  looks_bare (l ++ j ++ r) = true.
Proof.
  intros [m ->] Hl Hr. unfold looks_bare.
  assert (Hs : exists v, strip (l ++ (c_lbrace :: m ++ [c_rbrace]) ++ r)
                         = c_lbrace :: v).
  { simpl app. apply strip_head; [exact Hl | reflexivity]. }
  assert (He : exists v, strip (l ++ (c_lbrace :: m ++ [c_rbrace]) ++ r)
                         = v ++ [c_rbrace]).
  { replace (l ++ (c_lbrace :: m ++ [c_rbrace]) ++ r)
      with ((l ++ c_lbrace :: m) ++ c_rbrace :: r)
      by (rewrite <- !app_assoc; simpl; now rewrite <- app_assoc).
    apply strip_last; [exact Hr | reflexivity]. }
  destruct Hs as [v Hv], He as [v' Hv'].
  apply andb_true_iff. split.
  - rewrite Hv, startswith_cons1. reflexivity.
  - rewrite Hv', endswith_snoc1. reflexivity.
Qed.




End ProseFacts.

(* ================================================================== *)
(** * The decoder reads a prefix of its input *)
(* ================================================================== *)

Section DecoderFacts.

Import Decoder Locality.

Variable m : N.

Lemma skip_ws_split (s : pystr) :
  exists w, s = w ++ skip_ws s /\ forallb is_ws w = true.
Proof.
  induction s as [| x s (w & IH & Hw)]; simpl; [now exists [] |].
  destruct (is_ws x) eqn:Hx; [| now exists []].
  exists (x :: w). simpl. rewrite Hx, Hw. split; [now f_equal | reflexivity].
Qed.

Lemma skip_ws_head (s r : pystr) (x : N) :
  skip_ws s = x :: r -> is_ws x = false.
Proof.
  induction s as [| y s IH]; simpl; [discriminate |].
  destruct (is_ws y) eqn:Hy; [exact IH |].
  intros H. injection H as <- _. exact Hy.
Qed.

Lemma skip_ws_app (w s : pystr) :
  forallb is_ws w = true -> skip_ws (w ++ s) = skip_ws s.
Proof.
  induction w as [| x w IH]; simpl; [reflexivity |].
  intros H. apply andb_true_iff in H as [-> Hw]. auto.
Qed.

Lemma skip_ws_stop (x : N) (r : pystr) :
  is_ws x = false -> skip_ws (x :: r) = x :: r.
Proof. intros H. simpl. now rewrite H. Qed.

(** What [skip_ws] finds, and that it finds it again in front of any
    other continuation. *)
Lemma skip_ws_found (s r : pystr) (x : N) :
  skip_ws s = x :: r ->
  exists w, s = w ++ x :: r /\ forallb is_ws w = true /\ is_ws x = false
            /\ forall t, skip_ws (w ++ x :: t) = x :: t.
Proof.
  intros H. destruct (skip_ws_split s) as (w & E & Hw).
  pose proof (skip_ws_head s r x H) as Hx.
  exists w. rewrite H in E. repeat split; auto.
  intros t. rewrite skip_ws_app by exact Hw. now apply skip_ws_stop.
Qed.

Lemma span_digits_spec (s d r : pystr) :
  span_digits s = (d, r) ->
  s = d ++ r /\ forallb is_digit d = true /\ hd_ok is_digit r = true.
Proof.
  revert d r. induction s as [| x s IH]; intros d r; simpl.
  - intros H. injection H as <- <-. auto.
  - destruct (is_digit x) eqn:Hx.
    + destruct (span_digits s) as [d' r'] eqn:E. intros H.
      injection H as <- <-. destruct (IH d' r' eq_refl) as (-> & Hd & Hr).
      simpl. rewrite Hx, Hd. auto.
    + intros H. injection H as <- <-. simpl. rewrite Hx. auto.
Qed.

Lemma span_digits_app (d u : pystr) :
  forallb is_digit d = true -> hd_ok is_digit u = true ->
  span_digits (d ++ u) = (d, u).
Proof.
  intros Hd Hu. induction d as [| x d IH]; cbn [app span_digits].
  - destruct u as [| y u]; [reflexivity |]. cbn [hd_ok] in Hu.
    apply negb_true_iff in Hu. cbn [span_digits]. now rewrite Hu.
  - cbn [forallb] in Hd. apply andb_true_iff in Hd as [-> Hd]. now rewrite IH.
Qed.

Lemma match_int_local (s ip r : pystr) :
  match_int s = Some (ip, r) ->
  s = ip ++ r
  /\ (exists x ip', ip = x :: ip' /\ is_digit x = true)
  /\ forall u, hd_ok is_digit u = true -> match_int (ip ++ u) = Some (ip, u).
Proof.
  unfold match_int. destruct s as [| c s]; [discriminate |].
  destruct (c =? 48) eqn:H0.
  - intros H. injection H as <- <-. apply N.eqb_eq in H0. subst c.
    split; [reflexivity |]. split; [now exists 48, [] |].
    intros u _. reflexivity.
  - destruct (is_digit c) eqn:Hc; [| discriminate].
    destruct (span_digits s) as [d r'] eqn:E. intros H. injection H as <- <-.
    destruct (span_digits_spec s d r' E) as (-> & Hd & Hr).
    split; [reflexivity |]. split; [now exists c, d |].
    intros u Hu. simpl. rewrite H0, Hc, span_digits_app by assumption.
    reflexivity.
Qed.

Lemma match_frac_local (s fp r : pystr) :
  match_frac s = (fp, r) ->
  s = fp ++ r
  /\ hd_ok is_digit fp = true
  /\ forall u, hd_ok is_digit u = true -> hd_ok (N.eqb 46) u = true ->
               match_frac (fp ++ u) = (fp, u).
Proof.
  assert (Hnil : forall u, hd_ok (N.eqb 46) u = true -> match_frac u = ([], u)).
  { intros [| y u] Hu; [reflexivity |]. cbn [hd_ok] in Hu.
    apply negb_true_iff in Hu. rewrite N.eqb_sym in Hu.
    unfold match_frac. now rewrite Hu. }
  unfold match_frac. destruct s as [| c s].
  { intros H. injection H as <- <-. split; [reflexivity |].
    split; [reflexivity |]. intros u _ Hu. now apply Hnil. }
  destruct (c =? 46) eqn:Hc.
  - destruct (span_digits s) as [[| y d] r'] eqn:E.
    + intros H. injection H as <- <-. split; [reflexivity |].
      split; [reflexivity |]. intros u _ Hu. now apply Hnil.
    + intros H. injection H as <- <-.
      destruct (span_digits_spec s _ r' E) as (-> & Hd & Hr).
      split; [reflexivity |].
      split; [simpl; apply N.eqb_eq in Hc; subst c; reflexivity |].
      intros u Hu _. cbn [app]. rewrite Hc.
      change (y :: d ++ u) with ((y :: d) ++ u).
      rewrite span_digits_app by assumption. reflexivity.
  - intros H. injection H as <- <-. split; [reflexivity |].
    split; [reflexivity |]. intros u _ Hu. now apply Hnil.
Qed.

Lemma match_exp_local (s ep r : pystr) :
  match_exp s = (ep, r) ->
  s = ep ++ r
  /\ hd_ok is_digit ep = true /\ hd_ok (N.eqb 46) ep = true
  /\ forall u, hd_ok is_digit u = true -> hd_ok is_e u = true ->
               match_exp (ep ++ u) = (ep, u).
Proof.
  assert (Hnil : forall u, hd_ok is_e u = true -> match_exp u = ([], u)).
  { intros [| y u] Hu; [reflexivity |]. cbn [hd_ok] in Hu.
    apply negb_true_iff in Hu. unfold is_e in Hu.
    unfold match_exp. now rewrite Hu. }
  assert (Hstay : forall s0 : pystr,
             ([] : pystr, s0) = (ep, r) ->
             s0 = ep ++ r
             /\ hd_ok is_digit ep = true /\ hd_ok (N.eqb 46) ep = true
             /\ forall u, hd_ok is_digit u = true -> hd_ok is_e u = true ->
                          match_exp (ep ++ u) = (ep, u)).
  { intros s0 H. injection H as <- <-. repeat split. intros u _ Hu.
    now apply Hnil. }
  unfold match_exp at 1. destruct s as [| c s]; [apply Hstay |].
  destruct ((c =? 101) || (c =? 69)) eqn:Hc; [| apply Hstay].
  assert (Hc' : is_digit c = false /\ (46 =? c) = false).
  { apply orb_true_iff in Hc as [Hc | Hc]; apply N.eqb_eq in Hc; subst c;
      split; reflexivity. }
  destruct s as [| g s]; [apply Hstay |].
  destruct ((g =? 45) || (g =? 43)) eqn:Hg.
  - destruct (span_digits s) as [[| y d] r'] eqn:E; [apply Hstay |].
    intros H. injection H as <- <-.
    destruct (span_digits_spec s _ r' E) as (-> & Hd & Hr).
    split; [reflexivity |]. cbn [hd_ok]. destruct Hc' as [-> ->].
    split; [reflexivity |]. split; [reflexivity |].
    intros u Hu _. unfold match_exp. cbn [app]. rewrite Hc, Hg.
    change (y :: d ++ u) with ((y :: d) ++ u).
    rewrite span_digits_app by assumption. reflexivity.
  - destruct (span_digits (g :: s)) as [[| y d] r'] eqn:E; [apply Hstay |].
    intros H. injection H as <- <-.
    destruct (span_digits_spec (g :: s) _ r' E) as (E' & Hd & Hr).
    injection E' as -> ->.
    split; [reflexivity |]. cbn [hd_ok]. destruct Hc' as [-> ->].
    split; [reflexivity |]. split; [reflexivity |].
    intros u Hu _. unfold match_exp. cbn [app]. rewrite Hc, Hg.
    change (y :: d ++ u) with ((y :: d) ++ u).
    rewrite span_digits_app by assumption. reflexivity.
Qed.

Lemma hd_ok_app (f : N -> bool) (a b : pystr) :
  hd_ok f a = true -> hd_ok f b = true -> hd_ok f (a ++ b) = true.
Proof. destruct a; simpl; auto. Qed.

Lemma numstop_parts (t : pystr) :
  numstop t = true ->
  hd_ok is_digit t = true /\ hd_ok (N.eqb 46) t = true
  /\ hd_ok is_e t = true.
Proof.
  destruct t as [| x t]; [auto |]. unfold numstop, is_num_next, is_e.
  cbn [hd_ok]. rewrite !negb_true_iff, !orb_false_iff.
  intros [[[H1 H2] H3] H4]. rewrite (N.eqb_sym 46 x). auto.
Qed.

(** A number is read from a prefix of the input, begins with a sign or a
    digit, and is read again in front of any continuation that cannot
    extend it. *)
Lemma match_number_local (s rest : pystr) (v : json) :
  match_number m s = Some (inr v, rest) ->
  exists c,
    s = c ++ rest
    /\ (exists x c', c = x :: c' /\ ((x =? 45) || is_digit x) = true)
    /\ (forall o, v <> JDict o)
    /\ forall t, numstop t = true ->
                 match_number m (c ++ t) = Some (inr v, t).
Proof.
  unfold match_number at 1.
  set (sign := match s with
               | c :: r => if c =? 45 then (true, r) else (false, s)
               | [] => (false, s)
               end).
  destruct sign as [neg s1] eqn:Esign.
  destruct (match_int s1) as [[ip s2] |] eqn:Ei; [| discriminate].
  destruct (match_frac s2) as [fp s3] eqn:Ef.
  destruct (match_exp s3) as [ep s4] eqn:Ee.
  destruct (match_int_local _ _ _ Ei) as (E1 & (x & ip' & Eip & Hx) & Hint).
  destruct (match_frac_local _ _ _ Ef) as (E2 & Hfd & Hfrac).
  destruct (match_exp_local _ _ _ Ee) as (E3 & Hed & Hep & Hexp).
  intros Hv.
  assert (Hrest : rest = s4) by (destruct fp, ep; now injection Hv).
  subst rest.
  assert (Hs : s = (if neg then [45] else []) ++ ip ++ fp ++ ep ++ s4).
  { subst s1 s2 s3. unfold sign in Esign.
    destruct s as [| c s]; [injection Esign as <- <-; reflexivity |].
    destruct (c =? 45) eqn:Hc; injection Esign as <- <-;
      [apply N.eqb_eq in Hc; subst c |]; reflexivity. }
  assert (Hneg : neg = false -> (x =? 45) = false).
  { intros ->. destruct (x =? 45) eqn:Hx45; [| reflexivity].
    apply N.eqb_eq in Hx45. subst x. discriminate Hx. }
  exists ((if neg then [45] else []) ++ ip ++ fp ++ ep).
  split; [rewrite Hs, <- !app_assoc; reflexivity |].
  split.
  { destruct neg; subst ip; cbn [app]; eexists _, _; split;
      try reflexivity. rewrite Hx. apply orb_true_r. }
  split.
  { intros o ->. destruct fp, ep; try discriminate Hv.
    injection Hv as Hv. unfold parse_int in Hv.
    destruct ((0 <? m) && (m <? N.of_nat (List.length ip)));
      discriminate Hv. }
  intros t Ht. destruct (numstop_parts t Ht) as (Ht1 & Ht2 & Ht3).
  assert (Hrun : match_number m
                   ((if neg then [45] else []) ++ ip ++ fp ++ ep ++ t)
                 = match fp, ep with
                   | [], [] => Some (parse_int m neg ip, t)
                   | _, _ =>
                       Some (inr (JFloat ((if neg then [45] else [])
                                          ++ ip ++ fp ++ ep)), t)
                   end).
  { unfold match_number. destruct neg.
    - cbn [app]. change (45 =? 45) with true. cbv iota beta.
      rewrite Hint
        by (apply hd_ok_app; [exact Hfd | apply hd_ok_app; assumption]).
      rewrite Hfrac by (apply hd_ok_app; assumption).
      rewrite Hexp by assumption. reflexivity.
    - subst ip. cbn [app]. rewrite (Hneg eq_refl).
      change (x :: ip' ++ fp ++ ep ++ t) with ((x :: ip') ++ fp ++ ep ++ t).
      rewrite Hint
        by (apply hd_ok_app; [exact Hfd | apply hd_ok_app; assumption]).
      rewrite Hfrac by (apply hd_ok_app; assumption).
      rewrite Hexp by assumption. reflexivity. }
  rewrite <- !app_assoc, Hrun.
  destruct fp, ep; injection Hv as Hv;
    first [rewrite Hv; reflexivity | subst v; reflexivity].
Qed.

Lemma match_number_error (s rest : pystr) (e : exn) :
  match_number m s = Some (inl e, rest) -> e = ValueError_digits.
Proof.
  unfold match_number.
  destruct (match s with
            | c :: r => if c =? 45 then (true, r) else (false, s)
            | [] => (false, s)
            end) as [neg s1].
  destruct (match_int s1) as [[ip s2] |]; [| discriminate].
  destruct (match_frac s2) as [fp s3]. destruct (match_exp s3) as [ep s4].
  destruct fp, ep; try discriminate. unfold parse_int.
  destruct ((0 <? m) && (m <? N.of_nat (List.length ip)));
    [| discriminate].
  intros H. now injection H as <- _.
Qed.

Lemma hexval_quote : hexval 34 = None.
Proof. reflexivity. Qed.

Lemma hex4_no_quote (a b c d u : N) :
  hex4 a b c d = Some u -> a <> 34 /\ b <> 34 /\ c <> 34 /\ d <> 34.
Proof.
  unfold hex4. intros H.
  repeat split; intros ->; rewrite hexval_quote in H;
    repeat (match type of H with
            | context [match ?x with _ => _ end] => destruct x
            end); discriminate H.
Qed.

Ltac string_step IH r' acc' prefix :=
  let c' := fresh "c'" in
  let E := fresh "E" in
  let Hrun := fresh "Hrun" in
  let t := fresh "t" in
  intros H; destruct (IH r' ltac:(simpl in *; lia) acc' _ _ H)
    as (c' & E & Hrun);
  exists (prefix ++ c'); split;
  [ rewrite E; reflexivity
  | intros t; cbn [app scanstring] ].

Lemma scanstring_local_bounded (n : nat) :
  forall s, (List.length s <= n)%nat -> forall acc, string_local s acc.
Proof.
  induction n as [| n IH]; intros s Hlen acc str rest.
  { destruct s; [discriminate | simpl in Hlen; lia]. }
  destruct s as [| c r]; [discriminate |]. cbn [scanstring].
  destruct (c =? 34) eqn:Hq.
  { intros H. injection H as <- <-. apply N.eqb_eq in Hq. subst c.
    exists []. split; [reflexivity | intros t; reflexivity]. }
  destruct (c =? 92) eqn:Hb.
  2:{ destruct (c <? 32) eqn:Hc; [discriminate |].
      string_step IH r (c :: acc) [c]. rewrite Hq, Hb, Hc. apply Hrun. }
  destruct r as [| e r1]; [discriminate |].
  destruct (e =? 117) eqn:Hu.
  2:{ destruct (backslash e) as [ch |] eqn:He; [| discriminate].
      string_step IH r1 (ch :: acc) [c; e]. rewrite Hq, Hb, Hu, He.
      apply Hrun. }
  destruct r1 as [| h1 [| h2 [| h3 [| h4 r2]]]]; try discriminate.
  destruct (hex4 h1 h2 h3 h4) as [uni |] eqn:Hh; [| discriminate].
  destruct (is_high_surrogate uni) eqn:Hhi.
  2:{ string_step IH r2 (uni :: acc) [c; e; h1; h2; h3; h4].
      rewrite Hq, Hb, Hu, Hh, Hhi. apply Hrun. }
  destruct r2 as [| b [| u r3]].
  { discriminate. }
  { string_step IH [b] (uni :: acc) [c; e; h1; h2; h3; h4].
    rewrite Hq, Hb, Hu, Hh, Hhi.
    destruct c' as [| x c'];
      [| destruct c'; discriminate E].
    injection E as -> <-. cbn [app] in Hrun |- *.
    destruct t as [| y t]; [apply Hrun |].
    change (34 =? 92) with false. cbn [andb]. apply Hrun. }
  destruct ((b =? 92) && (u =? 117)) eqn:Hbu.
  2:{ string_step IH (b :: u :: r3) (uni :: acc) [c; e; h1; h2; h3; h4].
      rewrite Hq, Hb, Hu, Hh, Hhi.
      destruct c' as [| x [| y c']]; cbn [app] in E, Hrun |- *.
      - injection E as -> _. destruct t as [| y t]; [apply Hrun |].
        change (34 =? 92) with false. cbn [andb]. apply Hrun.
      - injection E as -> -> _.
        change (34 =? 117) with false. rewrite andb_false_r. apply Hrun.
      - injection E as -> -> _. rewrite Hbu. apply Hrun. }
  destruct r3 as [| k1 [| k2 [| k3 [| k4 r4]]]]; try discriminate.
  destruct (hex4 k1 k2 k3 k4) as [uni2 |] eqn:Hk; [| discriminate].
  destruct (is_low_surrogate uni2) eqn:Hlo.
  { string_step IH r4 (join_surrogates uni uni2 :: acc)
      [c; e; h1; h2; h3; h4; b; u; k1; k2; k3; k4].
    rewrite Hq, Hb, Hu, Hh, Hhi, Hbu, Hk, Hlo. apply Hrun. }
  string_step IH (b :: u :: k1 :: k2 :: k3 :: k4 :: r4) (uni :: acc)
    [c; e; h1; h2; h3; h4].
  rewrite Hq, Hb, Hu, Hh, Hhi.
  apply andb_true_iff in Hbu as [Hb92 Hu117].
  apply N.eqb_eq in Hb92, Hu117.
  destruct (hex4_no_quote _ _ _ _ _ Hk) as (N1 & N2 & N3 & N4).
  destruct c' as [| x0 [| x1 [| x2 [| x3 [| x4 [| x5 c']]]]]];
    cbn [app] in E; injection E; intros; try congruence.
  subst x0 x1 x2 x3 x4 x5. cbn [app]. subst b u.
  change ((92 =? 92) && (117 =? 117)) with true. cbv iota.
  rewrite Hk, Hlo. apply Hrun.
Qed.

Lemma scanstring_local (s acc : pystr) : string_local s acc.
Proof. apply (scanstring_local_bounded (List.length s)). lia. Qed.

Lemma is_ws_not_num (x : N) : is_ws x = true -> is_num_next x = false.
Proof.
  unfold is_ws. rewrite !orb_true_iff.
  intros [[[H | H] | H] | H]; apply N.eqb_eq in H; subst x; reflexivity.
Qed.

Lemma numstop_after_ws (w t : pystr) (x : N) :
  forallb is_ws w = true -> is_num_next x = false ->
  numstop (w ++ x :: t) = true.
Proof.
  unfold numstop. destruct w as [| y w]; cbn [app hd_ok forallb].
  - intros _ ->. reflexivity.
  - intros H _. apply andb_true_iff in H as [H _].
    now rewrite (is_ws_not_num y H).
Qed.

Lemma skip_ws_prefix (s0 cv r u : pystr) :
  cv <> [] -> skip_ws s0 = cv ++ r -> skip_ws (cv ++ u) = cv ++ u.
Proof.
  destruct cv as [| x cv]; [congruence |]. intros _ H.
  cbn [app] in *. apply skip_ws_stop. eapply skip_ws_head, H.
Qed.

Ltac list_norm :=
  repeat (rewrite <- app_assoc || rewrite <- app_comm_cons).

Lemma array_items_local (f : nat) :
  value_local m f ->
  forall d n s acc l rest,
    array_items (scan_once m f d) d n s acc = POk l rest ->
    exists c,
      s = c ++ 93 :: rest
      /\ forall t n' f' d', (List.length c < n')%nat ->
                            (List.length c <= f')%nat -> (d <= d')%nat ->
           array_items (scan_once m f' d') d' n' (c ++ 93 :: t) acc = POk l t.
Proof.
  intros Hf d. induction n as [| n IH]; intros s acc l rest; [discriminate |].
  cbn [array_items].
  destruct (scan_once m f d s) as [v r | x |] eqn:Ev; try discriminate.
  destruct (Hf _ _ _ _ Ev) as (cv & Es & Hcv & _ & Hval).
  destruct (skip_ws r) as [| c r2] eqn:Er; [discriminate |].
  destruct (skip_ws_found _ _ _ Er) as (w & Ew & Hw & Hc & Hskip).
  destruct (c =? 93) eqn:H93.
  - intros H. injection H as <- <-. apply N.eqb_eq in H93. subst c.
    exists (cv ++ w). split; [subst; list_norm; reflexivity |].
    intros t n' f' d' Hn Hf' Hd'. rewrite length_app in Hn, Hf'.
    destruct n' as [| n']; [lia |]. cbn [array_items]. list_norm.
    rewrite Hval by (try apply numstop_after_ws; auto; lia).
    rewrite Hskip. reflexivity.
  - destruct (c =? 44) eqn:H44; [| discriminate].
    apply N.eqb_eq in H44. subst c. intros H.
    destruct (IH _ _ _ _ H) as (c2 & E2 & Hrun).
    destruct (skip_ws_split r2) as (wd & Ewd & Hwd).
    exists (cv ++ w ++ 44 :: wd ++ c2).
    split.
    { rewrite Es, Ew, Ewd, E2. list_norm. reflexivity. }
    intros t n' f' d' Hn Hf' Hd'. rewrite !length_app in Hn, Hf'.
    cbn [List.length] in Hn, Hf'. rewrite !length_app in Hn, Hf'.
    destruct n' as [| n']; [lia |]. cbn [array_items]. list_norm.
    rewrite Hval by (try apply numstop_after_ws; auto; lia).
    rewrite Hskip. cbn [N.eqb Pos.eqb]. change (44 =? 93) with false.
    change (44 =? 44) with true. cbv iota.
    rewrite skip_ws_app by exact Hwd.
    assert (Hkeep : skip_ws (c2 ++ 93 :: t) = c2 ++ 93 :: t).
    { destruct c2 as [| x c2]; [reflexivity |].
      change ((x :: c2) ++ 93 :: t) with ((x :: c2) ++ [93] ++ t).
      rewrite app_assoc.
      eapply (skip_ws_prefix r2 ((x :: c2) ++ [93]) rest);
        [discriminate |].
      rewrite E2. list_norm. reflexivity. }
    rewrite Hkeep. apply Hrun; lia.
Qed.

Lemma object_items_local (f : nat) :
  value_local m f ->
  forall d n s acc l rest,
    object_items (scan_once m f d) d n s acc = POk l rest ->
    exists c,
      s = c ++ 125 :: rest
      /\ forall t n' f' d', (List.length c < n')%nat ->
                            (List.length c <= f')%nat -> (d <= d')%nat ->
           object_items (scan_once m f' d') d' n' (c ++ 125 :: t) acc = POk l t.
Proof.
  intros Hf d. induction n as [| n IH]; intros s acc l rest; [discriminate |].
  cbn [object_items].
  destruct s as [| q s0]; [discriminate |].
  destruct (q =? 34) eqn:Hq; [| discriminate].
  destruct (scanstring s0 []) as [[key r0] |] eqn:Ek; [| discriminate].
  destruct (scanstring_local s0 [] key r0 Ek) as (ck & Eck & Hkey).
  destruct (skip_ws r0) as [| c r1] eqn:Er0; [discriminate |].
  destruct (skip_ws_found _ _ _ Er0) as (wa & Ewa & Hwa & _ & Hskipa).
  destruct (c =? 58) eqn:H58; [| discriminate].
  apply N.eqb_eq in H58. subst c.
  destruct (scan_once m f d (skip_ws r1)) as [v r2 | x |] eqn:Ev;
    try discriminate.
  destruct (Hf _ _ _ _ Ev) as (cv & Ecv & Hcv & _ & Hval).
  destruct (skip_ws_split r1) as (wb & Ewb & Hwb).
  destruct (skip_ws r2) as [| e r3] eqn:Er2; [discriminate |].
  destruct (skip_ws_found _ _ _ Er2) as (wc & Ewc & Hwc & _ & Hskipc).
  assert (Hkeepv : forall u, skip_ws (cv ++ u) = cv ++ u).
  { intros u. eapply skip_ws_prefix; [exact Hcv | exact Ecv]. }
  destruct (e =? 125) eqn:H125.
  - intros H. injection H as <- <-. apply N.eqb_eq in H125. subst e.
    exists (q :: ck ++ 34 :: wa ++ 58 :: wb ++ cv ++ wc).
    split.
    { rewrite Eck, Ewa, Ewb, Ecv, Ewc. list_norm. reflexivity. }
    intros t n' f' d' Hn Hf' Hd'. cbn [List.length] in Hn, Hf'.
    rewrite !length_app in Hn, Hf'. cbn [List.length] in Hn, Hf'.
    rewrite !length_app in Hn, Hf'. cbn [List.length] in Hn, Hf'.
    rewrite !length_app in Hn, Hf'.
    destruct n' as [| n']; [lia |]. list_norm. cbn [object_items].
    rewrite Hq, Hkey, Hskipa. change (58 =? 58) with true. cbv iota.
    rewrite skip_ws_app, Hkeepv by exact Hwb.
    rewrite Hval by (try apply numstop_after_ws; auto; lia).
    rewrite Hskipc. reflexivity.
  - destruct (e =? 44) eqn:H44; [| discriminate].
    apply N.eqb_eq in H44. subst e. intros H.
    destruct (IH _ _ _ _ H) as (c2 & E2 & Hrun).
    destruct (skip_ws_split r3) as (wd & Ewd & Hwd).
    exists (q :: ck ++ 34 :: wa ++ 58 :: wb ++ cv ++ wc ++ 44 :: wd ++ c2).
    split.
    { rewrite Eck, Ewa, Ewb, Ecv, Ewc, Ewd, E2. list_norm. reflexivity. }
    intros t n' f' d' Hn Hf' Hd'. cbn [List.length] in Hn, Hf'.
    rewrite !length_app in Hn, Hf'. cbn [List.length] in Hn, Hf'.
    rewrite !length_app in Hn, Hf'. cbn [List.length] in Hn, Hf'.
    rewrite !length_app in Hn, Hf'. cbn [List.length] in Hn, Hf'.
    rewrite !length_app in Hn, Hf'.
    destruct n' as [| n']; [lia |]. list_norm. cbn [object_items].
    rewrite Hq, Hkey, Hskipa. change (58 =? 58) with true. cbv iota.
    rewrite skip_ws_app, Hkeepv by exact Hwb.
    rewrite Hval by (try apply numstop_after_ws; auto; lia).
    rewrite Hskipc. change (44 =? 125) with false.
    change (44 =? 44) with true. cbv iota.
    rewrite skip_ws_app by exact Hwd.
    assert (Hkeep : skip_ws (c2 ++ 125 :: t) = c2 ++ 125 :: t).
    { destruct c2 as [| x c2]; [reflexivity |].
      change ((x :: c2) ++ 125 :: t) with ((x :: c2) ++ [125] ++ t).
      rewrite app_assoc.
      eapply (skip_ws_prefix r3 ((x :: c2) ++ [125]) rest);
        [discriminate |].
      rewrite E2. list_norm. reflexivity. }
    rewrite Hkeep. apply Hrun; lia.
Qed.

Lemma py_length (w : string) : List.length (py w) = String.length w.
Proof. induction w; simpl; [reflexivity | now f_equal]. Qed.

Lemma startswith_split (s p : pystr) :
  startswith s p = true -> s = p ++ skipn (List.length p) s.
Proof.
  revert s. induction p as [| x p IH]; intros s; [reflexivity |].
  destruct s as [| y s]; [discriminate |]. cbn [startswith].
  intros H. apply andb_true_iff in H as [Hx Hp]. apply N.eqb_eq in Hx.
  subst y. cbn [List.length skipn app]. f_equal. now apply IH.
Qed.

Lemma word_found (w : string) (s r : pystr) :
  word w s = Some r -> s = py w ++ r.
Proof.
  unfold word. destruct (startswith s (py w)) eqn:H; [| discriminate].
  intros E. injection E as <-. rewrite <- py_length.
  now apply startswith_split.
Qed.

Lemma word_not_number (x : N) (s : pystr) :
  ((x =? 45) || is_digit x) = true ->
  word "null" (x :: s) = None /\ word "true" (x :: s) = None
  /\ word "false" (x :: s) = None.
Proof.
  intros H. unfold word.
  change (py "null") with [110; 117; 108; 108].
  change (py "true") with [116; 114; 117; 101].
  change (py "false") with [102; 97; 108; 115; 101].
  cbn [startswith].
  destruct (N.eqb_spec 110 x) as [<- | _]; [discriminate H |].
  destruct (N.eqb_spec 116 x) as [<- | _]; [discriminate H |].
  destruct (N.eqb_spec 102 x) as [<- | _]; [discriminate H |].
  auto.
Qed.

Ltac literal_case W :=
  let H := fresh "H" in
  let t := fresh "t" in
  let f' := fresh "f'" in
  let d' := fresh "d'" in
  let Hl := fresh "Hl" in
  intros H; injection H as <- <-;
  apply word_found in W; eexists; split; [exact W |];
  split; [discriminate |]; split; [discriminate |];
  intros t f' d' _ Hl _;
  destruct f' as [| f']; [cbv in Hl; lia | reflexivity].

Ltac constant_case W d :=
  let H := fresh "H" in
  let t := fresh "t" in
  let f' := fresh "f'" in
  let d' := fresh "d'" in
  let Hl := fresh "Hl" in
  let Hd := fresh "Hd" in
  destruct d; [discriminate |]; cbn [parse_constant];
  intros H; injection H as <- <-;
  apply word_found in W; eexists; split; [exact W |];
  split; [discriminate |]; split; [discriminate |];
  intros t f' d' _ Hl Hd;
  destruct f' as [| f']; [cbv in Hl; lia |];
  destruct d' as [| d']; [lia | reflexivity].

(** Every successful scan is local. *)
Lemma scan_once_local (f : nat) : value_local m f.
Proof.
  induction f as [| f IH]; intros d s v rest; [discriminate |].
  cbn [scan_once]. destruct s as [| c r]; [discriminate |].
  destruct (c =? 34) eqn:H34.
  { destruct (scanstring r []) as [[str r'] |] eqn:Es; [| discriminate].
    intros H. injection H as <- <-.
    destruct (scanstring_local r [] str r' Es) as (cs & E & Hrun).
    exists (c :: cs ++ [34]).
    split; [rewrite E; list_norm; reflexivity |].
    split; [discriminate |]. split; [discriminate |].
    intros t f' d' _ Hl _. destruct f' as [| f']; [simpl in Hl; lia |].
    list_norm. cbn [app scan_once]. rewrite H34, Hrun. reflexivity. }
  destruct (c =? 123) eqn:H123.
  { apply N.eqb_eq in H123. subst c.
    destruct d as [| d0]; [discriminate |].
    destruct (skip_ws r) as [| e r1] eqn:Er; [discriminate |].
    destruct (skip_ws_found _ _ _ Er) as (w & Ew & Hw & He & Hskip).
    destruct (e =? 125) eqn:H125.
    - intros H. injection H as <- <-. apply N.eqb_eq in H125. subst e.
      exists (123 :: w ++ [125]).
      split; [rewrite Ew; list_norm; reflexivity |].
      split; [discriminate |].
      split; [intros _ _; now exists w |].
      intros t f' d' _ Hl Hd. destruct f' as [| f']; [simpl in Hl; lia |].
      destruct d' as [| d0']; [lia |].
      list_norm. cbn [app scan_once]. rewrite Hskip. reflexivity.
    - destruct (object_items (scan_once m f d0) d0 f (e :: r1) [])
        as [pairs r2 | x |] eqn:Eo; try discriminate.
      intros H. injection H as <- <-.
      destruct (object_items_local f IH _ _ _ _ _ _ Eo) as (ci & Eci & Hrun).
      exists (123 :: w ++ ci ++ [125]).
      split; [rewrite Ew, Eci; list_norm; reflexivity |].
      split; [discriminate |].
      split; [intros _ _; exists (w ++ ci); list_norm; reflexivity |].
      intros t f' d' _ Hl Hd. cbn [List.length] in Hl.
      rewrite !length_app in Hl. cbn [List.length] in Hl.
      destruct f' as [| f']; [lia |].
      destruct d' as [| d0']; [lia |].
      list_norm. cbn [app scan_once].
      rewrite skip_ws_app by exact Hw.
      assert (Hkeep : skip_ws (ci ++ 125 :: t) = e :: skipn 1 (ci ++ 125 :: t)).
      { destruct ci as [| x ci]; cbn [app] in Eci |- *;
          injection Eci as <- _; now rewrite skip_ws_stop. }
      rewrite Hkeep, H125.
      replace (e :: skipn 1 (ci ++ 125 :: t)) with (ci ++ 125 :: t)
        by (destruct ci as [| x ci]; cbn [app] in Eci |- *;
            injection Eci as <- _; reflexivity).
      rewrite Hrun by lia. reflexivity. }
  destruct (c =? 91) eqn:H91.
  { apply N.eqb_eq in H91. subst c.
    destruct d as [| d0]; [discriminate |].
    destruct (skip_ws r) as [| e r1] eqn:Er; [discriminate |].
    destruct (skip_ws_found _ _ _ Er) as (w & Ew & Hw & He & Hskip).
    destruct (e =? 93) eqn:H93.
    - intros H. injection H as <- <-. apply N.eqb_eq in H93. subst e.
      exists (91 :: w ++ [93]).
      split; [rewrite Ew; list_norm; reflexivity |].
      split; [discriminate |]. split; [discriminate |].
      intros t f' d' _ Hl Hd. destruct f' as [| f']; [simpl in Hl; lia |].
      destruct d' as [| d0']; [lia |].
      list_norm. cbn [app scan_once]. rewrite Hskip. reflexivity.
    - destruct (array_items (scan_once m f d0) d0 f (e :: r1) [])
        as [items r2 | x |] eqn:Ea; try discriminate.
      intros H. injection H as <- <-.
      destruct (array_items_local f IH _ _ _ _ _ _ Ea) as (ci & Eci & Hrun).
      exists (91 :: w ++ ci ++ [93]).
      split; [rewrite Ew, Eci; list_norm; reflexivity |].
      split; [discriminate |]. split; [discriminate |].
      intros t f' d' _ Hl Hd. cbn [List.length] in Hl.
      rewrite !length_app in Hl. cbn [List.length] in Hl.
      destruct f' as [| f']; [lia |].
      destruct d' as [| d0']; [lia |].
      list_norm. cbn [app scan_once].
      rewrite skip_ws_app by exact Hw.
      assert (Hkeep : skip_ws (ci ++ 93 :: t) = e :: skipn 1 (ci ++ 93 :: t)).
      { destruct ci as [| x ci]; cbn [app] in Eci |- *;
          injection Eci as <- _; now rewrite skip_ws_stop. }
      rewrite Hkeep, H93.
      replace (e :: skipn 1 (ci ++ 93 :: t)) with (ci ++ 93 :: t)
        by (destruct ci as [| x ci]; cbn [app] in Eci |- *;
            injection Eci as <- _; reflexivity).
      rewrite Hrun by lia. reflexivity. }
  destruct (word "null" (c :: r)) as [p |] eqn:Wnull; [literal_case Wnull |].
  destruct (word "true" (c :: r)) as [p |] eqn:Wtrue; [literal_case Wtrue |].
  destruct (word "false" (c :: r)) as [p |] eqn:Wfalse;
    [literal_case Wfalse |].
  destruct (match_number m (c :: r)) as [[[x | v'] r'] |] eqn:Em;
    [discriminate | |].
  { intros H. injection H as <- <-.
    destruct (match_number_local _ _ _ Em)
      as (cn & E & (x & cn' & Ecn & Hx) & Hnd & Hrun).
    exists cn. split; [exact E |].
    split; [rewrite Ecn; discriminate |].
    split; [intros o Ho; exfalso; exact (Hnd o Ho) |].
    intros t f' d' Ht Hl _. rewrite Ecn in E, Hl. cbn [app] in E.
    injection E as -> _.
    destruct f' as [| f']; [simpl in Hl; lia |].
    destruct (word_not_number x (cn' ++ t) Hx) as (W1 & W2 & W3).
    rewrite Ecn in Hrun |- *. cbn [app scan_once] in Hrun |- *.
    rewrite H34, H123, H91, W1, W2, W3, Hrun by exact Ht. reflexivity. }
  destruct (word "NaN" (c :: r)) as [p |] eqn:Wnan; [constant_case Wnan d |].
  destruct (word "Infinity" (c :: r)) as [p |] eqn:Winf;
    [constant_case Winf d |].
  destruct (word "-Infinity" (c :: r)) as [p |] eqn:Wninf;
    [constant_case Wninf d | discriminate].
Qed.

(** ** The exceptions of the decoder *)

Lemma errmsg_cases (d : nat) :
  errmsg d = JSONDecodeError \/ errmsg d = RecursionError.
Proof. unfold errmsg. destruct (d <? 3)%nat; auto. Qed.

Lemma errmsg_is_decode_error (d : nat) : decode_error (errmsg d).
Proof.
  destruct (errmsg_cases d) as [-> | ->]; [now left | right; now right].
Qed.

Lemma array_items_errors (scan : pystr -> presult json) (d : nat) :
  (forall s e, scan s = PErr e -> scan_error e) ->
  forall n s acc e, array_items scan d n s acc = PErr e -> scan_error e.
Proof.
  intros Hs.
  assert (Hj : forall e, @PErr (list json) (errmsg d) = PErr e
                         -> scan_error e).
  { intros e H. injection H as <-. left. apply errmsg_is_decode_error. }
  induction n as [| n IH]; intros s acc e; [discriminate |].
  cbn [array_items].
  destruct (scan s) as [v r | x |] eqn:Ev; [| | discriminate].
  - destruct (skip_ws r) as [| c r2]; [apply Hj |].
    destruct (c =? 93); [discriminate |].
    destruct (c =? 44); [apply IH | apply Hj].
  - intros H. injection H as <-. eapply Hs, Ev.
Qed.

Lemma object_items_errors (scan : pystr -> presult json) (d : nat) :
  (forall s e, scan s = PErr e -> scan_error e) ->
  forall n s acc e, object_items scan d n s acc = PErr e -> scan_error e.
Proof.
  intros Hs.
  assert (Hj : forall e, @PErr (list (pystr * json)) (errmsg d) = PErr e
                         -> scan_error e).
  { intros e H. injection H as <-. left. apply errmsg_is_decode_error. }
  induction n as [| n IH]; intros s acc e; [discriminate |].
  cbn [object_items].
  destruct s as [| q s0]; [apply Hj |].
  destruct (q =? 34); [| apply Hj].
  destruct (scanstring s0 []) as [[key r0] |]; [| apply Hj].
  destruct (skip_ws r0) as [| c r1]; [apply Hj |].
  destruct (c =? 58); [| apply Hj].
  destruct (scan (skip_ws r1)) as [v r2 | x |] eqn:Ev; [| | discriminate].
  - destruct (skip_ws r2) as [| e' r3]; [apply Hj |].
    destruct (e' =? 125); [discriminate |].
    destruct (e' =? 44); [apply IH | apply Hj].
  - intros H. injection H as <-. eapply Hs, Ev.
Qed.

(** A scan raises JSONDecodeError, the ValueError of an over-long
    integer, RecursionError or StopIteration, and nothing else. *)
Lemma scan_once_errors (f : nat) :
  forall d s e, scan_once m f d s = PErr e -> scan_error e.
Proof.
  assert (Hj : forall d e, @PErr json (errmsg d) = PErr e -> scan_error e).
  { intros d e H. injection H as <-. left. apply errmsg_is_decode_error. }
  assert (Hr : forall e, @PErr json RecursionError = PErr e
                         -> scan_error e).
  { intros e H. injection H as <-. left. right. now right. }
  assert (Hs : forall e, @PErr json StopIteration = PErr e -> scan_error e).
  { intros e H. injection H as <-. now right. }
  assert (Hc : forall d name r e,
             parse_constant d name r = PErr e -> scan_error e).
  { intros [| d] name r e; [apply Hr | discriminate]. }
  induction f as [| f IH]; intros d s e; [discriminate |].
  cbn [scan_once]. destruct s as [| c r]; [apply Hs |].
  destruct (c =? 34).
  { destruct (scanstring r []) as [[str r'] |]; [discriminate | apply Hj]. }
  destruct (c =? 123).
  { destruct d as [| d0]; [apply Hr |].
    destruct (skip_ws r) as [| x r1]; [apply Hj |].
    destruct (x =? 125); [discriminate |].
    destruct (object_items (scan_once m f d0) d0 f (x :: r1) [])
      as [pairs r2 | y |] eqn:Eo; try discriminate.
    intros H. injection H as <-.
    eapply (object_items_errors (scan_once m f d0) d0 (IH d0)), Eo. }
  destruct (c =? 91).
  { destruct d as [| d0]; [apply Hr |].
    destruct (skip_ws r) as [| x r1]; [apply Hs |].
    destruct (x =? 93); [discriminate |].
    destruct (array_items (scan_once m f d0) d0 f (x :: r1) [])
      as [items r2 | y |] eqn:Ea; try discriminate.
    intros H. injection H as <-.
    eapply (array_items_errors (scan_once m f d0) d0 (IH d0)), Ea. }
  destruct (word "null" (c :: r)); [discriminate |].
  destruct (word "true" (c :: r)); [discriminate |].
  destruct (word "false" (c :: r)); [discriminate |].
  destruct (match_number m (c :: r)) as [[[x | v'] r'] |] eqn:Em;
    [| discriminate |].
  { intros H. injection H as <-.
    rewrite (match_number_error _ _ _ Em). left. right. now left. }
  destruct (word "NaN" (c :: r)); [apply Hc |].
  destruct (word "Infinity" (c :: r)); [apply Hc |].
  destruct (word "-Infinity" (c :: r)); [apply Hc | apply Hs].
Qed.

Lemma decode_with_errors (d : nat) (s : pystr) (e : exn) :
  decode_with m d s = inl e -> decode_error e.
Proof.
  assert (Hj : forall k x, @inl exn json (raise_JSONDecodeError d k) = inl x
                           -> decode_error x).
  { intros k x H. injection H as <-. apply errmsg_is_decode_error. }
  unfold decode_with. destruct (startswith s [65279]); [apply Hj |].
  destruct (scan_once m (S (List.length s)) d (skip_ws s))
    as [v rest | x |] eqn:Ev.
  - destruct (skip_ws rest); [discriminate | apply Hj].
  - destruct (scan_once_errors _ _ _ _ Ev) as [Hx | ->]; [| apply Hj].
    destruct Hx as [-> | [-> | ->]]; intros H; injection H as <-;
      [now left | right; now left | right; now right].
  - intros H. injection H as <-. now left.
Qed.

Lemma skip_ws_nil (s : pystr) : skip_ws s = [] -> forallb is_ws s = true.
Proof.
  intros H. destruct (skip_ws_split s) as (w & E & Hw).
  rewrite H, app_nil_r in E. now subst.
Qed.

(** When [decode_with] returns. *)
Lemma decode_with_ok (d : nat) (s : pystr) (v : json) :
  decode_with m d s = inr v <->
  startswith s [65279] = false
  /\ exists rest,
       scan_once m (S (List.length s)) d (skip_ws s) = POk v rest
       /\ skip_ws rest = [].
Proof.
  unfold decode_with. destruct (startswith s [65279]).
  { split; [discriminate | intros [H _]; discriminate H]. }
  destruct (scan_once m (S (List.length s)) d (skip_ws s))
    as [v' rest | x |].
  - destruct (skip_ws rest) eqn:Er.
    + split.
      * intros H. injection H as ->. split; [reflexivity |]. now exists rest.
      * intros [_ (rest' & H & _)]. now injection H as -> _.
    + split; [discriminate |].
      intros [_ (rest' & H & Hr)]. injection H as _ <-. congruence.
  - split; [destruct x; discriminate |].
    intros [_ (rest' & H & _)]. discriminate H.
  - split; [discriminate |]. intros [_ (rest' & H & _)]. discriminate H.
Qed.

(** A text that decodes to an object is a braced text between
    whitespace, and the braced text alone decodes to the same object. *)
Lemma decode_with_object_shape (d : nat) (j : pystr) (o : dict) :
  decode_with m d j = inr (JDict o) ->
  exists w1 core w2,
    j = w1 ++ core ++ w2
    /\ forallb is_ws w1 = true /\ forallb is_ws w2 = true
    /\ Spec.braced core
    /\ decode_with m d core = inr (JDict o).
Proof.
  intros H. apply decode_with_ok in H as (_ & rest & Ev & Er).
  destruct (scan_once_local _ _ _ _ _ Ev) as (c & Ec & _ & Hb & Hrun).
  destruct (skip_ws_split j) as (w1 & E1 & Hw1).
  exists w1, c, rest.
  split; [rewrite E1 at 1; now rewrite Ec |].
  split; [exact Hw1 |]. split; [now apply skip_ws_nil |].
  specialize (Hb o eq_refl). split; [exact Hb |].
  destruct Hb as [m0 Hm]. apply decode_with_ok.
  specialize (Hrun [] (S (List.length c)) d eq_refl
                (Nat.le_succ_diag_r _) (Nat.le_refl _)).
  rewrite app_nil_r in Hrun. rewrite Hm in Hrun |- *.
  split; [reflexivity |]. exists []. split; [exact Hrun | reflexivity].
Qed.

(** ** The limit on digits only rejects *)

Lemma match_number_unlimited (s rest : pystr) (v : json) :
  match_number m s = Some (inr v, rest) ->
  match_number 0 s = Some (inr v, rest).
Proof.
  unfold match_number.
  destruct (match s with
            | c :: r => if c =? 45 then (true, r) else (false, s)
            | [] => (false, s)
            end) as [neg s1].
  destruct (match_int s1) as [[ip s2] |]; [| discriminate].
  destruct (match_frac s2) as [fp s3]. destruct (match_exp s3) as [ep s4].
  destruct fp, ep; try (intros H; exact H). unfold parse_int.
  destruct ((0 <? m) && (m <? N.of_nat (List.length ip)));
    [discriminate | intros H; exact H].
Qed.

Lemma match_number_none (s : pystr) :
  match_number m s = None -> match_number 0 s = None.
Proof.
  unfold match_number.
  destruct (match s with
            | c :: r => if c =? 45 then (true, r) else (false, s)
            | [] => (false, s)
            end) as [neg s1].
  destruct (match_int s1) as [[ip s2] |]; [| reflexivity].
  destruct (match_frac s2) as [fp s3]. destruct (match_exp s3) as [ep s4].
  destruct fp, ep; discriminate.
Qed.

Lemma array_items_unlimited (scan scan' : pystr -> presult json) (d : nat) :
  (forall s v r, scan s = POk v r -> scan' s = POk v r) ->
  forall n s acc l rest,
    array_items scan d n s acc = POk l rest ->
    array_items scan' d n s acc = POk l rest.
Proof.
  intros Hs. induction n as [| n IH]; intros s acc l rest; [discriminate |].
  cbn [array_items].
  destruct (scan s) as [v r | x |] eqn:Ev; try discriminate.
  rewrite (Hs _ _ _ Ev).
  destruct (skip_ws r) as [| c r2]; [discriminate |].
  destruct (c =? 93); [intros H; exact H |].
  destruct (c =? 44); [apply IH | discriminate].
Qed.

Lemma object_items_unlimited (scan scan' : pystr -> presult json) (d : nat) :
  (forall s v r, scan s = POk v r -> scan' s = POk v r) ->
  forall n s acc l rest,
    object_items scan d n s acc = POk l rest ->
    object_items scan' d n s acc = POk l rest.
Proof.
  intros Hs. induction n as [| n IH]; intros s acc l rest; [discriminate |].
  cbn [object_items].
  destruct s as [| q s0]; [discriminate |].
  destruct (q =? 34); [| discriminate].
  destruct (scanstring s0 []) as [[key r0] |]; [| discriminate].
  destruct (skip_ws r0) as [| c r1]; [discriminate |].
  destruct (c =? 58); [| discriminate].
  destruct (scan (skip_ws r1)) as [v r2 | x |] eqn:Ev; try discriminate.
  rewrite (Hs _ _ _ Ev).
  destruct (skip_ws r2) as [| e r3]; [discriminate |].
  destruct (e =? 125); [intros H; exact H |].
  destruct (e =? 44); [apply IH | discriminate].
Qed.

(** What is decoded under a limit on digits is decoded, to the same
    value, without it. *)
Lemma scan_once_unlimited (f : nat) :
  forall d s v rest,
    scan_once m f d s = POk v rest -> scan_once 0 f d s = POk v rest.
Proof.
  induction f as [| f IH]; intros d s v rest; [discriminate |].
  cbn [scan_once]. destruct s as [| c r]; [discriminate |].
  destruct (c =? 34); [intros H; exact H |].
  destruct (c =? 123).
  { destruct d as [| d0]; [discriminate |].
    destruct (skip_ws r) as [| e r1]; [discriminate |].
    destruct (e =? 125); [intros H; exact H |].
    destruct (object_items (scan_once m f d0) d0 f (e :: r1) [])
      as [pairs r2 | x |] eqn:Eo; try discriminate.
    rewrite (object_items_unlimited _ _ d0 (IH d0) _ _ _ _ _ Eo).
    intros H; exact H. }
  destruct (c =? 91).
  { destruct d as [| d0]; [discriminate |].
    destruct (skip_ws r) as [| e r1]; [discriminate |].
    destruct (e =? 93); [intros H; exact H |].
    destruct (array_items (scan_once m f d0) d0 f (e :: r1) [])
      as [items r2 | x |] eqn:Ea; try discriminate.
    rewrite (array_items_unlimited _ _ d0 (IH d0) _ _ _ _ _ Ea).
    intros H; exact H. }
  destruct (word "null" (c :: r)); [intros H; exact H |].
  destruct (word "true" (c :: r)); [intros H; exact H |].
  destruct (word "false" (c :: r)); [intros H; exact H |].
  destruct (match_number m (c :: r)) as [[[x | v'] r'] |] eqn:Em.
  - discriminate.
  - rewrite (match_number_unlimited _ _ _ Em). intros H; exact H.
  - rewrite (match_number_none _ Em). intros H; exact H.
Qed.

Lemma decode_with_unlimited (d : nat) (s : pystr) (v : json) :
  decode_with m d s = inr v -> decode_with 0 d s = inr v.
Proof.
  intros H. apply decode_with_ok in H as (Hb & rest & Ev & Er).
  unfold decode_with.
  rewrite Hb, (scan_once_unlimited _ _ _ _ _ Ev), Er. reflexivity.
Qed.

(** ** The fuel of [decode] is never used up *)

Ltac len E :=
  apply (f_equal (@List.length N)) in E;
  rewrite ?length_app in E; cbn [List.length] in E;
  rewrite ?length_app in E; cbn [List.length] in E.

Lemma skip_ws_length (s : pystr) :
  (List.length (skip_ws s) <= List.length s)%nat.
Proof.
  destruct (skip_ws_split s) as (w & E & _). len E. lia.
Qed.

Lemma array_items_fuel (f : nat) :
  fuel_enough m f ->
  forall d n s acc,
    (List.length s < n)%nat -> (List.length s < f)%nat ->
    array_items (scan_once m f d) d n s acc <> PFuel.
Proof.
  intros Hf d. induction n as [| n IH]; intros s acc Hn Hlen; [lia |].
  cbn [array_items].
  destruct (scan_once m f d s) as [v r | x |] eqn:Ev;
    [| discriminate | exfalso; exact (Hf d s Hlen Ev)].
  destruct (scan_once_local _ _ _ _ _ Ev) as (cv & Es & Hcv & _).
  destruct (skip_ws r) as [| c r2] eqn:Er; [discriminate |].
  destruct (skip_ws_found _ _ _ Er) as (w & Ew & _).
  destruct (c =? 93); [discriminate |].
  destruct (c =? 44); [| discriminate].
  pose proof (skip_ws_length r2). len Es. len Ew.
  destruct cv; [congruence |]. cbn [List.length] in Es.
  apply IH; lia.
Qed.

Lemma object_items_fuel (f : nat) :
  fuel_enough m f ->
  forall d n s acc,
    (List.length s < n)%nat -> (List.length s <= f)%nat ->
    object_items (scan_once m f d) d n s acc <> PFuel.
Proof.
  intros Hf d. induction n as [| n IH]; intros s acc Hn Hlen; [lia |].
  cbn [object_items].
  destruct s as [| q s0]; [discriminate |].
  destruct (q =? 34); [| discriminate].
  destruct (scanstring s0 []) as [[key r0] |] eqn:Ek; [| discriminate].
  destruct (scanstring_local s0 [] key r0 Ek) as (ck & Eck & _).
  destruct (skip_ws r0) as [| c r1] eqn:Er0; [discriminate |].
  destruct (skip_ws_found _ _ _ Er0) as (wa & Ewa & _).
  destruct (c =? 58); [| discriminate].
  pose proof (skip_ws_length r1). len Eck. len Ewa.
  cbn [List.length] in Hn, Hlen.
  destruct (scan_once m f d (skip_ws r1)) as [v r2 | x |] eqn:Ev;
    [| discriminate | exfalso; apply (Hf d (skip_ws r1)); [lia | exact Ev]].
  destruct (scan_once_local _ _ _ _ _ Ev) as (cv & Ecv & Hcv & _).
  destruct (skip_ws r2) as [| e r3] eqn:Er2; [discriminate |].
  destruct (skip_ws_found _ _ _ Er2) as (wc & Ewc & _).
  destruct (e =? 125); [discriminate |].
  destruct (e =? 44); [| discriminate].
  pose proof (skip_ws_length r3). len Ecv. len Ewc.
  apply IH; lia.
Qed.

Lemma scan_once_fuel (f : nat) : fuel_enough m f.
Proof.
  induction f as [| f IH]; intros d s Hlen; [lia |].
  cbn [scan_once]. destruct s as [| c r]; [discriminate |].
  cbn [List.length] in Hlen.
  destruct (c =? 34).
  { destruct (scanstring r []) as [[str r'] |]; discriminate. }
  destruct (c =? 123).
  { destruct d as [| d0]; [discriminate |].
    destruct (skip_ws r) as [| e r1] eqn:Er; [discriminate |].
    destruct (e =? 125); [discriminate |].
    pose proof (skip_ws_length r) as Hr. rewrite Er in Hr.
    pose proof (object_items_fuel f IH d0 f (e :: r1) []
                  ltac:(lia) ltac:(lia)) as Ho.
    destruct (object_items (scan_once m f d0) d0 f (e :: r1) []);
      [discriminate | discriminate | congruence]. }
  destruct (c =? 91).
  { destruct d as [| d0]; [discriminate |].
    destruct (skip_ws r) as [| e r1] eqn:Er; [discriminate |].
    destruct (e =? 93); [discriminate |].
    pose proof (skip_ws_length r) as Hr. rewrite Er in Hr.
    pose proof (array_items_fuel f IH d0 f (e :: r1) []
                  ltac:(lia) ltac:(lia)) as Ha.
    destruct (array_items (scan_once m f d0) d0 f (e :: r1) []);
      [discriminate | discriminate | congruence]. }
  destruct (word "null" (c :: r)); [discriminate |].
  destruct (word "true" (c :: r)); [discriminate |].
  destruct (word "false" (c :: r)); [discriminate |].
  destruct (match_number m (c :: r)) as [[[x | v'] r'] |]; try discriminate.
  destruct (word "NaN" (c :: r)); [destruct d; discriminate |].
  destruct (word "Infinity" (c :: r)); [destruct d; discriminate |].
  destruct (word "-Infinity" (c :: r)); [destruct d |]; discriminate.
Qed.

(** [decode_with] gives its scanner enough fuel: a text is rejected only
    for what it contains. *)
Lemma decode_fuel (d : nat) (s : pystr) :
  scan_once m (S (List.length s)) d (skip_ws s) <> PFuel.
Proof.
  apply scan_once_fuel. pose proof (skip_ws_length s). lia.
Qed.

End DecoderFacts.

Section LoadsFacts.

Import Decoder Locality.

Lemma decode_object_shape (j : pystr) (o : dict) :
  decode j = Some (JDict o) ->
  exists w1 core w2,
    j = w1 ++ core ++ w2
    /\ forallb is_ws w1 = true /\ forallb is_ws w2 = true
    /\ Spec.braced core
    /\ decode core = Some (JDict o).
Proof.
  intros H. apply loads_of_decode in H.
  destruct (decode_with_object_shape _ _ _ _ H)
    as (w1 & core & w2 & E & H1 & H2 & Hb & Hc).
  exists w1, core, w2. repeat split; auto.
  now apply decode_of_loads.
Qed.

(** What [json.loads] decodes is a JSON text by the grammar alone; so a
    text that is not valid JSON is rejected. *)
Lemma loads_accepts_valid (s : pystr) (v : json) :
  Py.loads (JStr s) = inr v -> Spec.valid_json s.
Proof.
  intros H. exists recursion_budget, v.
  exact (decode_with_unlimited _ _ _ _ H).
Qed.

Lemma invalid_json_is_rejected (s : pystr) :
  ~ Spec.valid_json s -> exists e, Py.loads (JStr s) = inl e.
Proof.
  intros H. destruct (Py.loads (JStr s)) as [e | v] eqn:E; [eauto |].
  exfalso. exact (H (loads_accepts_valid s v E)).
Qed.

(** [json.loads] on a [str] raises JSONDecodeError, the ValueError of an
    over-long integer, or RecursionError, and nothing else. *)
Lemma loads_errors (s : pystr) (e : exn) :
  Py.loads (JStr s) = inl e -> decode_error e.
Proof. apply decode_with_errors. Qed.

End LoadsFacts.

Section ProseTheorem.

Import Extractor Spec Decoder.

Lemma ws_is_space (w : pystr) : forallb is_ws w = true -> blank w = true.
Proof.
  unfold blank. rewrite !forallb_forall. intros H x Hx. specialize (H x Hx).
  unfold is_ws in H. rewrite !orb_true_iff in H.
  destruct H as [[[H | H] | H] | H]; apply N.eqb_eq in H; subst x; reflexivity.
Qed.



(** The bare text of an object is parsed directly, padded or not. *)
Lemma stage_a_padded (alert_id l core r : pystr) :
  braced core -> blank l = true -> blank r = true ->
  stage_a alert_id (l ++ core ++ r)
  = ([], Py.loads (JStr (l ++ core ++ r))).
Proof.
  intros Hc Hl Hr. unfold stage_a.
  now rewrite (looks_bare_padded l core r Hc Hl Hr).
Qed.


(** Beside C7: padding that [json.loads] itself accepts (JSON
    whitespace) changes nothing either. *)
Lemma decode_with_padded (m : N) (d : nat) (l core r : pystr) (v : json) :
  braced core -> decode_with m d core = inr v ->
  forallb is_ws l = true -> forallb is_ws r = true ->
  decode_with m d (l ++ core ++ r) = inr v.
Proof.
  intros [m0 Hm] Hd Hl Hr.
  apply decode_with_ok in Hd as (_ & rest & Ev & Erest).
  assert (Hskip : skip_ws core = core) by (rewrite Hm; reflexivity).
  rewrite Hskip in Ev.
  destruct (scan_once_local _ _ _ _ _ _ Ev) as (c & Ec & Hc & _ & Hrun).
  assert (Hrest : rest = []).
  { apply skip_ws_nil in Erest.
    destruct rest as [| x rest] using rev_ind; [reflexivity |].
    exfalso. rewrite Hm in Ec.
    change (c_lbrace :: m0 ++ [c_rbrace])
      with ((c_lbrace :: m0) ++ [c_rbrace]) in Ec.
    rewrite app_assoc in Ec. apply app_inj_tail in Ec as [_ <-].
    rewrite forallb_app in Erest. apply andb_true_iff in Erest as [_ Hx].
    discriminate Hx. }
  subst rest. rewrite app_nil_r in Ec. subst c.
  apply decode_with_ok. split.
  { destruct l as [| x l]; cbn [app].
    - rewrite Hm. reflexivity.
    - rewrite startswith_cons1. cbn [forallb] in Hl.
      apply andb_true_iff in Hl as [Hx _].
      destruct (N.eqb_spec 65279 x) as [<- | _]; [discriminate Hx |].
      reflexivity. }
  exists r. rewrite skip_ws_app by exact Hl.
  replace (skip_ws (core ++ r)) with (core ++ r)
    by (rewrite Hm; reflexivity).
  split.
  - apply Hrun.
    + destruct r as [| x r]; [reflexivity |]. cbn [forallb] in Hr.
      apply andb_true_iff in Hr as [Hx _]. unfold Locality.numstop.
      cbn [Locality.hd_ok]. now rewrite (is_ws_not_num x Hx).
    + rewrite !length_app. lia.
    + lia.
  - destruct (skip_ws_split r) as (w & Ew & Hw).
    destruct (skip_ws r) eqn:Esr; [reflexivity |].
    pose proof (skip_ws_head r _ _ Esr) as Hn.
    rewrite Ew, forallb_app in Hr. apply andb_true_iff in Hr as [_ Hr].
    cbn [forallb] in Hr. rewrite Hn in Hr. discriminate Hr.
Qed.

Lemma decode_padded (l core r : pystr) (v : json) :
  braced core -> Decoder.decode core = Some v ->
  forallb is_ws l = true -> forallb is_ws r = true ->
  Decoder.decode (l ++ core ++ r) = Some v.
Proof.
  intros Hb Hd Hl Hr. apply decode_of_loads.
  apply loads_of_decode in Hd.
  exact (decode_with_padded _ _ l core r v Hb Hd Hl Hr).
Qed.

Lemma json_whitespace_around_object (alert_id w1 j w2 : pystr) (o : dict) :
  Decoder.decode j = Some (JDict o) ->
  forallb is_ws w1 = true -> forallb is_ws w2 = true ->
  extract alert_id (w1 ++ j ++ w2) = extract alert_id j.
Proof.
  intros Hd H1 H2.
  destruct (decode_object_shape j o Hd)
    as (a & core & b & Ej & Ha & Hb & Hcore & Hdc).
  assert (Hpad : forall l r, forallb is_ws l = true -> forallb is_ws r = true ->
                 extract alert_id (l ++ core ++ r) = extract alert_id core).
  { intros l r Hl Hr. unfold extract.
    rewrite (stage_a_padded alert_id l core r Hcore
               (ws_is_space l Hl) (ws_is_space r Hr)).
    pose proof (stage_a_padded alert_id [] core [] Hcore eq_refl eq_refl)
      as Hc.
    cbn [app] in Hc. rewrite app_nil_r in Hc. rewrite Hc.
    rewrite (loads_of_decode _ _ (decode_padded l core r _ Hcore Hdc Hl Hr)),
      (loads_of_decode _ _ Hdc).
    reflexivity. }
  rewrite Ej at 2. rewrite (Hpad a b Ha Hb).
  replace (w1 ++ j ++ w2) with ((w1 ++ a) ++ core ++ (b ++ w2))
    by (rewrite Ej, <- !app_assoc; reflexivity).
  apply Hpad; rewrite forallb_app; apply andb_true_iff; auto.
Qed.

End ProseTheorem.

(* ================================================================== *)
(** * Concrete runs *)
(* ================================================================== *)

Section Runs.

Import Driver Extractor Scripted.

Lemma bad_inner_text_witness :
  classification
    (snd (analyse (answering (Spec.envelope_completion (py "not json")))
            zero (py "ALERT-1") (JDict [])))
  = failure_defaults.
Proof.
  edestruct (bad_inner_text_gives_failure_record
               (answering (Spec.envelope_completion (py "not json")))
               zero
               (fst (invoke_model
                       (answering (Spec.envelope_completion (py "not json")))
                       zero Spec.default_model (JDict [])))
               (py "ALERT-1")
               (Spec.envelope_completion (py "not json")) (py "not json")
               (JDict []))
    as (e & _ & Ha & _).
  - reflexivity.
  - vm_compute. reflexivity.
  - vm_compute. reflexivity.
  - vm_compute. reflexivity.
  - rewrite Ha. reflexivity.
Defined.

Lemma bare_invalid_json_witness :
  snd (analyse (answering (pyq "{not json}")) zero (py "ALERT-1") (JDict []))
  = failed (answering (pyq "{not json}")) JSONDecodeError.
Proof.
  edestruct (bare_invalid_json_is_inference_failure
               (answering (pyq "{not json}")) zero
               (fst (invoke_model (answering (pyq "{not json}"))
                       zero Spec.default_model (JDict [])))
               (py "ALERT-1")
               (pyq "{not json}") (JDict []))
    as (_ & Ha & _).
  - reflexivity.
  - vm_compute. reflexivity.
  - vm_compute. reflexivity.
  - vm_compute. reflexivity.
  - rewrite Ha. reflexivity.
Defined.


(** The surroundings in C7 have to be prose.  A form feed is whitespace
    for [strip] but not for [json.loads]: in front of an object it keeps
    the direct parse and makes it fail. *)
Lemma form_feed_is_not_prose :
  classify ([12] ++ pyq "{}") = inl JSONDecodeError
  /\ classify (pyq "{}") = inr Spec.unknown_defaults.
Proof. split; vm_compute; reflexivity. Qed.


(** Against C8 as worded: in a batch of three alerts whose first table
    write raises, the exception does not leave the handler.  The handler
    of line 314 logs it and the loop goes on: the handler returns a
    response of status 200 that lists the two other alerts, the alert
    whose write failed is in neither the table nor the response, and the
    only trace of the failure is the log record.  (An exception of the
    reading of the file, which no handler catches, does leave the
    handler.) *)
Lemma collaborator_failure_is_not_propagated :
  let lines := [alert_line; alert_line; alert_line] in
  let failure := ExternalError (py "ProvisionedThroughputExceededException") in
  let run_of (err : option exn) :=
    Coverage.lambda_handler_io first_write_fails zero
      (Some {| Coverage.lines_read := lines; Coverage.read_error := err |}) in
  (exists response,
      snd (run_of None) = inr response
      /\ statusCode response = 200%Z
      /\ List.length (processed_alerts response) = 2%nat)
  /\ count_puts (trace (fst (run_of None))) = 3%nat
  /\ count_publishes (trace (fst (run_of None))) = 2%nat
  /\ In (ELog (Log_unexpected_error (strip alert_line) failure))
        (trace (fst (run_of None)))
  /\ snd (run_of (Some failure)) = inl failure.
Proof.
  cbv zeta. split; [eexists; split; [reflexivity |]; split;
                    vm_compute; reflexivity |].
  split; [vm_compute; reflexivity |]. split; [vm_compute; reflexivity |].
  split; [| reflexivity].
  vm_compute. do 4 right. left. reflexivity.
Qed.



Lemma collaborator_failure_witness :
  count_puts
    (trace (run (start first_write_fails zero)
              [alert_line; alert_line; alert_line]))
  = (count_puts (trace (step (start first_write_fails zero) alert_line)) + 2)%nat.
Proof.
  edestruct (collaborator_failure_is_logged_and_loop_goes_on
               first_write_fails (start first_write_fails zero)
               alert_line [alert_line; alert_line])
    as (attempts & l & _ & _ & _ & _ & _ & H).
  - vm_compute. reflexivity.
  - vm_compute. reflexivity.
  - left. vm_compute. reflexivity.
  - vm_compute. reflexivity.
  - exact H.
Defined.

End Runs.

(* ================================================================== *)
(** * The loop on lines that hold no alert *)
(* ================================================================== *)

Section LineFacts.

Import Driver Extractor Coverage.

Variable P : Platform.


(** X2: a line that [json.loads] decodes to a value that is not an
    object (an array, a number, a string, null) fails at the first [get]
    with AttributeError, after one reading of the clock: it is reported
    by the catch-all handler in an ERROR log record, and nothing is
    invoked, written or published for it. *)
Theorem non_object_line_is_reported (st : Loop P) (line : pystr) (v : json) :
  Py.loads (JStr (strip line)) = inr v ->
  not_dict v = true ->
  step st line
  = {| world := fst (now P (world st));
       trace := trace st
                ++ [ELog (Log_unexpected_error (strip line) AttributeError)];
       processed_alerts_summary := processed_alerts_summary st |}.
Proof.
  intros H Hv. unfold step, process_line, try_line, build_alert. rewrite H.
  destruct (now P (world st)) as [w1 t1].
  destruct v; try discriminate Hv; cbn; rewrite app_nil_r; reflexivity.
Qed.

(** X3: an alert is built from every line that [json.loads] decodes to
    an object; a missing Severity, Source or Message becomes Low,
    Unknown and the empty string, a present one is taken as it is,
    whatever its type; the identifier comes from the first reading of
    the clock and ReceivedAt from the second. *)
Theorem alert_fields_and_defaults (w : World P) (line : pystr) (d : dict) :
  Py.loads (JStr (strip line)) = inr (JDict d) ->
  build_alert P w line
  = (fst (now P (fst (now P w))),
     inr {| AlertID := py "ALERT-" ++ strftime_us P (snd (now P w));
            Severity := get_or d "Severity" (JStr (py "Low"));
            Source := get_or d "Source" (JStr (py "Unknown"));
            Message := get_or d "Message" (JStr []);
            ReceivedAt := isoformat P (snd (now P (fst (now P w)))) |}).
Proof.
  intros H. unfold build_alert, get_or. rewrite H.
  destruct (now P w) as [w1 t1]. cbn [Py.get fst snd].
  destruct (Dict.lookup d (py "Severity")), (Dict.lookup d (py "Source")),
    (Dict.lookup d (py "Message")); cbn [bind];
    destruct (now P w1) as [w2 t2]; reflexivity.
Qed.

End LineFacts.

(* ================================================================== *)
(** * What the handler does at most once per line *)
(* ================================================================== *)

Section CallCounts.

Import Driver Extractor Coverage.

Variable P : Platform.

Lemma count_invokes_app (t u : list event) :
  count_invokes (t ++ u) = (count_invokes t + count_invokes u)%nat.
Proof. unfold count_invokes. now rewrite filter_app, length_app. Qed.

Lemma count_invokes_logs (l : list log) : count_invokes (map ELog l) = 0%nat.
Proof. induction l; simpl; auto. Qed.

Lemma enrich_one_invoke (w : World P) (a : Alert) :
  count_invokes (snd (fst (enrich P w a))) = 1%nat.
Proof.
  rewrite enrich_unfold. cbn [fst snd].
  destruct (analyse_events P w (AlertID a) (request_of P a)) as [logs ->].
  rewrite count_invokes_app.
  assert (Hw : exists l, warning_of P a = map ELog l).
  { unfold warning_of. destruct (snd _); [now eexists [_] | now exists []]. }
  destruct Hw as [l ->]. rewrite count_invokes_logs.
  change (EInvoke (MODEL_ID P) (request_of P a) :: map ELog logs)
    with ([EInvoke (MODEL_ID P) (request_of P a)] ++ map ELog logs).
  rewrite count_invokes_app, count_invokes_logs. reflexivity.
Qed.

Lemma deliver_shape (w : World P) (a : Alert) (f : Finalized) :
  let evs := snd (fst (deliver P w a f)) in
  count_invokes evs = 0%nat
  /\ count_puts evs = 1%nat
  /\ (count_publishes evs <= 1)%nat
  /\ (forall entry, snd (deliver P w a f) = inr entry ->
                    count_publishes evs = 1%nat).
Proof.
  unfold deliver.
  destruct (put_item P w (item_of P a f)) as [w1 [e |]];
    [cbn; repeat split; auto; discriminate |].
  destruct (publish P w1 _ _) as [w2 [e |]]; cbn; repeat split; auto;
    discriminate.
Qed.

Lemma built_iff_alert_line (w : World P) (line : pystr) :
  is_alert_line line
  = match snd (build_alert P w line) with
    | inr _ => true
    | inl _ => false
    end.
Proof.
  unfold is_alert_line, build_alert.
  destruct (Py.loads (JStr (strip line))) as [e | v]; [reflexivity |].
  destruct (now P w) as [w1 t1].
  destruct v as [| | | | | | d]; try reflexivity.
  cbn [Py.get].
  destruct (Dict.lookup d (py "Severity")), (Dict.lookup d (py "Source")),
    (Dict.lookup d (py "Message")); cbn [bind];
    destruct (now P w1) as [w2 t2]; reflexivity.
Qed.

Lemma line_counts (w : World P) (line : pystr) :
  let evs := snd (fst (process_line P w line)) in
  count_invokes evs = count_puts evs
  /\ count_puts evs = (if is_alert_line line then 1 else 0)%nat
  /\ (count_publishes evs <= count_puts evs)%nat
  /\ (List.length (match snd (process_line P w line) with
                   | Some entry => [entry]
                   | None => []
                   end) <= count_publishes evs)%nat.
Proof.
  cbv zeta. rewrite (process_line_unfold P w line), process_line_events.
  cbn [fst snd]. rewrite (built_iff_alert_line w line).
  destruct (build_alert P w line) as [w1 [e | a]] eqn:Hb.
  - unfold try_line. rewrite Hb. cbn [fst snd app].
    destruct (is_JSONDecodeError e); cbn; auto.
  - rewrite (try_line_unfold P _ _ _ _ Hb). cbn [fst snd].
    rewrite !count_invokes_app, !count_puts_app, !count_publishes_app.
    rewrite enrich_one_invoke.
    destruct (enrich_counts P w1 a) as [-> ->].
    destruct (deliver_shape (fst (fst (enrich P w1 a))) a (snd (enrich P w1 a)))
      as (-> & -> & Hle & Hok).
    destruct (snd (deliver P _ a _)) as [e | entry] eqn:Hd.
    + destruct (is_JSONDecodeError e); cbn; repeat split; lia.
    + rewrite (Hok entry eq_refl). cbn. repeat split; lia.
Qed.

Lemma run_counts (lines : list pystr) (st : Loop P) :
  let final := run st lines in
  count_invokes (trace final)
  = (count_invokes (trace st) + List.length (filter is_alert_line lines))%nat
  /\ count_puts (trace final)
     = (count_puts (trace st) + List.length (filter is_alert_line lines))%nat
  /\ (count_publishes (trace final) - count_publishes (trace st)
      <= List.length (filter is_alert_line lines))%nat
  /\ (count_publishes (trace st) <= count_publishes (trace final))%nat
  /\ (List.length (processed_alerts_summary final)
      - List.length (processed_alerts_summary st)
      <= count_publishes (trace final) - count_publishes (trace st))%nat.
Proof.
  revert st. induction lines as [| line rest IH]; intros st; cbv zeta.
  - cbn [run fold_left filter List.length]. repeat split; lia.
  - rewrite run_cons. specialize (IH (step st line)). cbv zeta in IH.
    rewrite !trace_step, !processed_step in IH.
    rewrite !count_invokes_app, !count_puts_app, !count_publishes_app,
      !length_app in IH.
    pose proof (line_counts (world st) line) as Hl. cbv zeta in Hl.
    cbn [filter].
    destruct IH as (I1 & I2 & I3 & I4 & I5).
    destruct Hl as (L1 & L2 & L3 & L4).
    destruct (is_alert_line line); cbn [List.length] in *;
      repeat split; lia.
Qed.

(** X4: whatever the file holds and however the model and the two
    services answer, the handler invokes the model exactly once for each
    line read that [json.loads] decodes to an object and never for
    another line (there is no retry), every invocation, failed or not,
    is followed by exactly one table write, and a publication is only
    made after a write.  The handler returns a response unless the
    reading of the file raises, or [json.dumps] raises RecursionError on
    a response that holds a value nested too deep: then the exception
    leaves the handler, after the calls for the lines read.  A response
    has status 404 when the file is missing and 200 otherwise, failures
    of alerts included, and lists at most one summary entry per
    publication. *)
Theorem handler_call_counts (w : World P) (file : option Reading) :
  let st := fst (lambda_handler_io P w file) in
  let outcome := snd (lambda_handler_io P w file) in
  count_invokes (trace st) = alert_line_count file
  /\ count_puts (trace st) = alert_line_count file
  /\ (count_publishes (trace st) <= count_puts (trace st))%nat
  /\ (List.length (processed_alerts_summary st)
      <= count_publishes (trace st))%nat
  /\ match outcome with
     | inr response =>
         processed_alerts response = processed_alerts_summary st
         /\ statusCode response
            = match file with Some _ => 200%Z | None => 404%Z end
         /\ dumps_raises (response_body (processed_alerts response)) = false
         /\ forall reading, file = Some reading -> read_error reading = None
     | inl e =>
         exists reading,
           file = Some reading
           /\ (read_error reading = Some e
               \/ (read_error reading = None
                   /\ e = RecursionError
                   /\ dumps_raises
                        (response_body (processed_alerts_summary st))
                      = true))
     end.
Proof.
  destruct file as [[lines err] |]; cbv zeta;
    unfold lambda_handler_io;
    cbn [lambda_handler fst snd alert_line_count statusCode
         processed_alerts trace lines_read read_error].
  - pose proof (run_counts lines
                  {| world := w; trace := [ELog (Log_using_model (MODEL_ID P))];
                     processed_alerts_summary := [] |}) as H.
    cbv zeta in H. cbn [trace processed_alerts_summary] in H.
    change (count_invokes [ELog (Log_using_model (MODEL_ID P))]) with 0%nat in H.
    change (count_puts [ELog (Log_using_model (MODEL_ID P))]) with 0%nat in H.
    change (count_publishes [ELog (Log_using_model (MODEL_ID P))])
      with 0%nat in H.
    cbn [List.length] in H.
    destruct H as (H1 & H2 & H3 & H4 & H5).
    destruct err as [e |]; [| destruct (dumps_raises _) eqn:Hd];
      cbn [fst snd statusCode processed_alerts].
    + repeat split; try lia. eexists. split; [reflexivity |]. now left.
    + repeat split; try lia. eexists. split; [reflexivity |]. right.
      repeat split. exact Hd.
    + repeat split; try lia; [exact Hd |].
      intros reading E. now injection E as <-.
  - repeat split; try (cbn; lia).
    intros reading E. discriminate E.
Qed.

End CallCounts.

(* ================================================================== *)
(** * Stage A always hands a dictionary to Stage B *)
(* ================================================================== *)

Section StageAFacts.

Import Decoder Extractor Coverage.

Lemma space_not (x k : N) :
  isspace x = true -> isspace k = false -> (x =? k) = false.
Proof.
  intros Hx Hk. destruct (N.eqb_spec x k) as [-> | _]; congruence.
Qed.

Lemma space_not_digit (x : N) : isspace x = true -> is_digit x = false.
Proof.
  intros H. unfold is_digit.
  destruct (48 <=? x) eqn:A; [| reflexivity].
  destruct (x <=? 57) eqn:B; [| reflexivity].
  apply N.leb_le in A, B. exfalso. unfold isspace in H.
  rewrite !orb_true_iff, !andb_true_iff, !N.leb_le, !N.eqb_eq in H. lia.
Qed.

Lemma word_head_mismatch (w : string) (a x : N) (tl r : pystr) :
  py w = a :: tl -> (x =? a) = false -> word w (x :: r) = None.
Proof.
  intros Hw Hx. unfold word. rewrite Hw. cbn [startswith].
  rewrite N.eqb_sym, Hx. reflexivity.
Qed.

(** No JSON value begins with a character that [strip] takes for
    whitespace and the decoder does not. *)
Lemma scan_space_fails (m : N) (f d : nat) (x : N) (r : pystr) (v : json)
    (rest : pystr) :
  isspace x = true -> scan_once m f d (x :: r) = POk v rest -> False.
Proof.
  intros Hx. destruct f as [| f]; [discriminate |]. cbn [scan_once].
  rewrite (space_not x 34 Hx eq_refl), (space_not x 123 Hx eq_refl),
    (space_not x 91 Hx eq_refl).
  rewrite (word_head_mismatch "null" 110 x _ r eq_refl
             (space_not x 110 Hx eq_refl)).
  rewrite (word_head_mismatch "true" 116 x _ r eq_refl
             (space_not x 116 Hx eq_refl)).
  rewrite (word_head_mismatch "false" 102 x _ r eq_refl
             (space_not x 102 Hx eq_refl)).
  rewrite (word_head_mismatch "NaN" 78 x _ r eq_refl
             (space_not x 78 Hx eq_refl)).
  rewrite (word_head_mismatch "Infinity" 73 x _ r eq_refl
             (space_not x 73 Hx eq_refl)).
  rewrite (word_head_mismatch "-Infinity" 45 x _ r eq_refl
             (space_not x 45 Hx eq_refl)).
  unfold match_number, match_int.
  rewrite (space_not x 45 Hx eq_refl), (space_not x 48 Hx eq_refl),
    (space_not_digit x Hx).
  discriminate.
Qed.

Lemma scan_brace_is_dict (m : N) (f d : nat) (r : pystr) (v : json)
    (rest : pystr) :
  scan_once m f d (c_lbrace :: r) = POk v rest -> exists o, v = JDict o.
Proof.
  destruct f as [| f]; [discriminate |]. cbn [scan_once].
  change (c_lbrace =? 34) with false. change (c_lbrace =? 123) with true.
  cbv iota. destruct d as [| d0]; [discriminate |].
  destruct (skip_ws r) as [| e r1]; [discriminate |].
  destruct (e =? 125); [intros H; injection H as <- _; eauto |].
  destruct (object_items (scan_once m f d0) d0 f (e :: r1) []);
    try discriminate.
  intros H. injection H as <- _. eauto.
Qed.

Lemma scan_after_blank_is_dict (m : N) (f d : nat) (l r : pystr) (v : json)
    (rest : pystr) :
  Spec.blank l = true ->
  scan_once m f d (skip_ws (l ++ c_lbrace :: r)) = POk v rest ->
  exists o, v = JDict o.
Proof.
  induction l as [| x l IH]; cbn [app skip_ws Spec.blank forallb].
  - intros _. change (is_ws c_lbrace) with false. cbv iota.
    apply scan_brace_is_dict.
  - intros H. apply andb_true_iff in H as [Hx Hl].
    destruct (is_ws x); [now apply IH |].
    intros Hs. exfalso. eapply scan_space_fails; eassumption.
Qed.

Lemma loads_after_blank_is_dict (l r : pystr) (v : json) :
  Spec.blank l = true ->
  Py.loads (JStr (l ++ c_lbrace :: r)) = inr v -> exists o, v = JDict o.
Proof.
  intros Hl H. unfold Py.loads, loads_str in H.
  apply decode_with_ok in H as (_ & rest & Es & _).
  eapply scan_after_blank_is_dict; eassumption.
Qed.

Lemma lstrip_suffix_blank (s : pystr) :
  exists l, s = l ++ lstrip s /\ Spec.blank l = true.
Proof.
  induction s as [| x s (l & IH & Hl)]; cbn [lstrip]; [now exists [] |].
  destruct (isspace x) eqn:Hx; [| now exists []].
  exists (x :: l). cbn. rewrite Hx. split; [now f_equal | exact Hl].
Qed.

Lemma strip_infix_blank (s : pystr) :
  exists l r, s = l ++ strip s ++ r /\ Spec.blank l = true.
Proof.
  destruct (lstrip_suffix_blank s) as (l & Hl & Hb).
  destruct (lstrip_suffix (rev (lstrip s))) as [r Hr].
  exists l, (rev r). split; [| exact Hb]. unfold strip, rstrip.
  rewrite <- rev_app_distr, <- Hr, rev_involutive. exact Hl.
Qed.

Lemma bracket_parse_outcome (raw : pystr) :
  (exists d, bracket_parse raw = inr (JDict d))
  \/ bracket_parse raw = inl ValueError
  \/ exists e, bracket_parse raw = inl e /\ Locality.decode_error e.
Proof.
  unfold bracket_parse.
  destruct (find_spec raw c_lbrace) as [[-> _] | (a & b & E & _ & Hf)];
    [auto |].
  rewrite Hf.
  destruct (negb (Z.of_nat (List.length a) =? -1)%Z
            && negb (rfind raw c_rbrace =? -1)%Z
            && (rfind raw c_rbrace >? Z.of_nat (List.length a))%Z) eqn:Hc;
    [| auto].
  apply andb_true_iff in Hc as [_ Hgt].
  apply Z.gtb_lt in Hgt.
  assert (Hs : exists m, slice raw (Z.of_nat (List.length a))
                           (rfind raw c_rbrace + 1) = c_lbrace :: m).
  { assert (Hsk : skipn (List.length a) raw = c_lbrace :: b).
    { rewrite E, skipn_app, skipn_all, Nat.sub_diag. reflexivity. }
    unfold slice. rewrite Nat2Z.id, Hsk.
    destruct (Z.to_nat (rfind raw c_rbrace + 1 - Z.of_nat (List.length a)))
      as [| k] eqn:Ek; [lia |].
    cbn [firstn]. eauto. }
  destruct Hs as [m ->].
  destruct (Py.loads (JStr (c_lbrace :: m))) as [e | v] eqn:Hl.
  - right. right. exists e. split; [reflexivity |].
    exact (loads_errors _ _ Hl).
  - left. destruct (loads_after_blank_is_dict [] m v eq_refl Hl) as [d ->].
    eauto.
Qed.

(** X5: whatever the raw response is, Stage A ends in one of three ways.
    It yields a dictionary: the parsed object, or the empty dictionary
    after a bracket search that found no pair or whose slice raised
    JSONDecodeError or the ValueError of an over-long integer.  Or the
    response looked bare and its direct parse raised (JSONDecodeError,
    that ValueError, or RecursionError).  Or the response did not look
    bare and the parse of the bracket slice raised RecursionError, which
    line 198 does not catch.  The value handed to Stage B is never a
    list, a string or a number, and the ValueError of line 197 never
    leaves Stage A. *)
Theorem stage_a_dict_or_decode_error (alert_id raw : pystr) :
  (exists d, snd (stage_a alert_id raw) = inr (JDict d))
  \/ (looks_bare raw = true
      /\ exists e,
           stage_a alert_id raw = ([], inl e)
           /\ Py.loads (JStr raw) = inl e
           /\ (e = JSONDecodeError \/ e = ValueError_digits
               \/ e = RecursionError))
  \/ (looks_bare raw = false
      /\ stage_a alert_id raw = ([], inl RecursionError)).
Proof.
  unfold stage_a. destruct (looks_bare raw) eqn:Hb.
  - destruct (Py.loads (JStr raw)) as [e | v] eqn:Hl.
    + right. left. split; [reflexivity |]. exists e.
      split; [reflexivity |]. split; [reflexivity |].
      exact (loads_errors _ _ Hl).
    + left. unfold looks_bare in Hb. apply andb_true_iff in Hb as [Hs _].
      apply startswith1_inv in Hs as [m Hm].
      destruct (strip_infix_blank raw) as (l & r & E & Hl').
      rewrite Hm in E. cbn [app] in E. rewrite E in Hl.
      destruct (loads_after_blank_is_dict l _ v Hl' Hl) as [d ->].
      exists d. reflexivity.
  - destruct (bracket_parse_outcome raw)
      as [[d ->] | [-> | (e & -> & [-> | [-> | ->]])]]; cbn; eauto.
Qed.

End StageAFacts.

(* ================================================================== *)
(** * Stage B and the field defaults on whole responses *)
(* ================================================================== *)

Section WholeResponses.

Import Decoder Extractor Coverage.


(** X7: inside a matched envelope the defaults that [get] supplies never
    lead to a classification.  When the first element of the content or
    results list is an object without its text field, or the first
    message has no content key, the text parsed is the empty string and
    [json.loads] raises JSONDecodeError. *)
Theorem get_defaults_end_in_decode_error (d e : dict) (l : list json) :
  (shape_of d = Content (JDict e :: l)
   /\ Dict.lookup e (py "text") = None)
  \/ (shape_of d = Results (JDict e :: l)
      /\ Dict.lookup e (py "outputText") = None)
  \/ (shape_of d = Messages (JDict e :: l)
      /\ Dict.lookup e (py "content") = None) ->
  stage_b (JDict d) = inl JSONDecodeError.
Proof.
  intros H. rewrite stage_b_by_shape.
  destruct H as [[-> H] | [[-> H] | [-> H]]];
    cbn [Py.getitem0 bind Py.get]; rewrite H; reflexivity.
Qed.

End WholeResponses.

(* ================================================================== *)
(** * The prefixes of the adapter exclude one another *)
(* ================================================================== *)

Section PrefixFacts.

Import Coverage.

Lemma startswith_both (m p q : pystr) :
  startswith m p = true -> startswith m q = true ->
  startswith p q = true \/ startswith q p = true.
Proof.
  revert m q. induction p as [| x p IH]; intros m q; [now right |].
  destruct q as [| y q]; [now left |].
  destruct m as [| z m]; [discriminate |]. cbn [startswith].
  intros H1 H2. apply andb_true_iff in H1 as [Hx H1].
  apply andb_true_iff in H2 as [Hy H2].
  apply N.eqb_eq in Hx, Hy. subst x y. rewrite N.eqb_refl. cbn [andb].
  eapply IH; eassumption.
Qed.

Lemma prefixes_exclusive (model p q : pystr) :
  In p prefixes -> In q prefixes ->
  startswith model p = true -> startswith model q = true ->
  p = q.
Proof.
  intros Hp Hq H1 H2.
  destruct (startswith_both model p q H1 H2) as [H | H];
    cbn in Hp, Hq;
    repeat (destruct Hp as [<- | Hp]; [| try contradiction]);
    repeat (destruct Hq as [<- | Hq]; [| try contradiction]);
    try reflexivity; vm_compute in H; discriminate H.
Qed.

Lemma other_prefix_fails (model p q : pystr) :
  In p prefixes -> In q prefixes ->
  startswith model p = true -> str_eqb p q = false ->
  startswith model q = false.
Proof.
  intros Hp Hq H1 Hne.
  destruct (startswith model q) eqn:H2; [| reflexivity].
  rewrite (prefixes_exclusive model p q Hp Hq H1 H2) in Hne.
  cbn in Hq.
  repeat (destruct Hq as [<- | Hq]; [vm_compute in Hne; discriminate Hne |]).
  contradiction.
Qed.

(** X8: no model identifier starts with two different prefixes of the
    adapter, so the order in which lines 108-137 test them never decides
    the branch; and the request body of a model identifier that starts
    with one of the prefixes is the body of that prefix: what follows
    the prefix (a version, a context size) changes nothing. *)
Theorem adapter_branch_is_decided_by_the_prefix
    (model p prompt : pystr) :
  In p prefixes ->
  startswith model p = true ->
  (forall q, In q prefixes -> startswith model q = true -> q = p)
  /\ Adapter.build_body model prompt = Adapter.build_body p prompt.
Proof.
  intros Hp H1. split.
  - intros q Hq H2. exact (prefixes_exclusive model q p Hq Hp H2 H1).
  - pose proof (fun q Hq => other_prefix_fails model p q Hp Hq H1) as Ho.
    assert (Hin : forall q, existsb (str_eqb q) prefixes = true ->
                            In q prefixes).
    { intros q Hq. apply existsb_exists in Hq as (x & Hx & E).
      apply str_eqb_eq in E. now subst x. }
    unfold Adapter.build_body.
    cbn in Hp.
    repeat (destruct Hp as [<- | Hp]; [| try contradiction]);
      rewrite ?H1;
      repeat match goal with
        | |- context [startswith model ?q] =>
            rewrite (Ho q (Hin q eq_refl) eq_refl)
        end;
      reflexivity.
Qed.

End PrefixFacts.

(* ================================================================== *)
(** * What is written and published for an analysed alert *)
(* ================================================================== *)

Section DeliveryFacts.

Import Driver Extractor Coverage Spec.

Variable P : Platform.


(** X10: an action type that is none of AI_HANDLED, HUMAN_REQUIRED,
    FALSE_POSITIVE and NON_ADDRESSABLE (UNKNOWN, the ERROR_BEDROCK_FAILED
    of a failed analysis, any other string, or a value that is not a
    string) is published under the Action Unknown subject with the text
    that recommends manual review, around the summary and the alert. *)
Theorem other_action_types_are_published_as_unknown
    (a : Alert) (c : Classification) :
  existsb (Py.eq_str (action_type c)) known_actions = false ->
  subject_of P a c
  = py "[UASO Alert - Action Unknown] "
    ++ py_str P (Severity a) ++ py " - " ++ py_str P (Source a)
  /\ message_of P a c
     = py "Alert Summary: " ++ py_str P (ai_summary c) ++ [10; 10]
       ++ py "The AI could not confidently determine the appropriate action for this alert. Manual review is highly recommended."
       ++ [10; 10] ++ py "Full Alert Details:" ++ [10]
       ++ json_dumps_indent2 P (alert_json a).
Proof.
  unfold known_actions. cbn [existsb]. rewrite !orb_false_iff.
  intros (H1 & H2 & H3 & H4 & _).
  unfold subject_of, message_of. rewrite H1, H2, H3, H4. split; reflexivity.
Qed.

(** X11: the item written for an alert whose analysis failed has
    ModelUsed unknown and a null InferenceTimestamp (the metadata holds
    neither key), carries the failure values, and stores the error text
    as its only metadata. *)
Theorem failed_analysis_item (a : Alert) (e : exn) :
  let item := item_of P a (failed P e) in
  at_path item [K "ModelUsed"] = Some (JStr (py "unknown"))
  /\ at_path item [K "InferenceTimestamp"] = Some JNull
  /\ at_path item [K "ActionType"] = Some (JStr (py "ERROR_BEDROCK_FAILED"))
  /\ at_path item [K "AISummary"]
     = Some (JStr (py "AI analysis unavailable at this time."))
  /\ at_path item [K "IsRealThreat"] = Some (JBool false)
  /\ at_path item [K "Status"] = Some (JStr (py "Open"))
  /\ at_path item [K "Metadata"]
     = Some (JStr (json_dumps P (JDict [(py "error", JStr (exn_str P e))]))).
Proof. repeat split; reflexivity. Qed.

End DeliveryFacts.

(* ================================================================== *)
(** * Every envelope hands its inner text to the field extraction *)
(* ================================================================== *)

Section EnvelopeFacts.

Import Decoder Extractor Coverage Spec.

(** Decoding undoes the escaping of a printable text. *)
Lemma scanstring_escaped (t : pystr) :
  printable t = true ->
  forall acc rest,
    scanstring (flat_map esc t ++ 34 :: rest) acc = Some (rev acc ++ t, rest).
Proof.
  induction t as [| c t IH]; intros Hp acc rest.
  - cbn. now rewrite app_nil_r.
  - cbn [printable forallb] in Hp. apply andb_true_iff in Hp as [Hc Hp].
    apply N.leb_le in Hc.
    assert (Hlt : (c <? 32) = false) by (apply N.ltb_ge; exact Hc).
    cbn [flat_map]. unfold esc at 1.
    assert (Hres : rev (c :: acc) ++ t = rev acc ++ c :: t)
      by (cbn [rev]; now rewrite <- app_assoc).
    destruct (N.eqb_spec c c_quote) as [-> | Hq].
    { cbn [orb app scanstring]. change (c_backslash =? 34) with false.
      change (c_backslash =? 92) with true. change (c_quote =? 117) with false.
      cbv iota. change (backslash c_quote) with (Some c_quote).
      cbv iota. rewrite (IH Hp), Hres. reflexivity. }
    destruct (N.eqb_spec c c_backslash) as [-> | Hb].
    { cbn [orb app scanstring]. change (c_backslash =? 34) with false.
      change (c_backslash =? 92) with true.
      change (c_backslash =? 117) with false.
      cbv iota. change (backslash c_backslash) with (Some c_backslash).
      cbv iota. rewrite (IH Hp), Hres. reflexivity. }
    cbn [orb app scanstring].
    destruct (N.eqb_spec c 34) as [E | _]; [contradiction |].
    destruct (N.eqb_spec c 92) as [E | _]; [contradiction |].
    rewrite Hlt, (IH Hp), Hres. reflexivity.
Qed.

(** A scan that consumes a whole braced text with some fuel and within
    the depth of the interpreter is what [decode] computes. *)
Lemma decode_of_scan (f d : nat) (r : pystr) (v : json) :
  (d <=? recursion_budget)%nat = true ->
  scan_once int_max_str_digits f d (c_lbrace :: r) = POk v [] ->
  decode (c_lbrace :: r) = Some v.
Proof.
  intros Hd H. apply Nat.leb_le in Hd.
  destruct (scan_once_local _ f _ _ _ _ H) as (c & Ec & _ & _ & Hrun).
  rewrite app_nil_r in Ec. subst c.
  specialize (Hrun [] (S (List.length (c_lbrace :: r))) recursion_budget
                eq_refl ltac:(lia) Hd).
  rewrite app_nil_r in Hrun. apply decode_of_loads.
  unfold Py.loads, loads_str. apply decode_with_ok.
  split; [reflexivity |]. exists []. split; [exact Hrun | reflexivity].
Qed.

Ltac explicit s := let x := eval vm_compute in s in change s with x.

Ltac decode_envelope f d t Hp :=
  unfold json_string;
  change (flat_map _ t) with (flat_map esc t);
  unfold c_quote;
  pose proof (scanstring_escaped t Hp) as Hbody;
  generalize dependent (flat_map esc t); intros body Hbody;
  cbn [app]; rewrite <- ?app_assoc; cbn [app];
  apply (decode_of_scan f d); [vm_compute; reflexivity |];
  cbn; rewrite Hbody; cbn; reflexivity.

Lemma decode_envelope_completion (t : pystr) :
  printable t = true ->
  decode (envelope_completion t) = Some (JDict [(py "completion", JStr t)]).
Proof.
  intros Hp. unfold envelope_completion.
  explicit (pyq "{'completion': "). explicit (pyq "}").
  decode_envelope 2%nat 1%nat t Hp.
Qed.

Lemma decode_envelope_content (t : pystr) :
  printable t = true ->
  decode (envelope_content t)
  = Some (JDict [(py "content", JList [JDict [(py "text", JStr t)]])]).
Proof.
  intros Hp. unfold envelope_content.
  explicit (pyq "{'content':[{'text': "). explicit (pyq "}]}").
  decode_envelope 4%nat 3%nat t Hp.
Qed.

Lemma decode_envelope_results (t : pystr) :
  printable t = true ->
  decode (envelope_results t)
  = Some (JDict [(py "results", JList [JDict [(py "outputText", JStr t)]])]).
Proof.
  intros Hp. unfold envelope_results.
  explicit (pyq "{'results':[{'outputText': "). explicit (pyq "}]}").
  decode_envelope 4%nat 3%nat t Hp.
Qed.

Lemma decode_envelope_messages (t : pystr) :
  printable t = true ->
  decode (envelope_messages t)
  = Some (JDict
            [(py "messages",
              JList [JDict [(py "content",
                             JList [JDict [(py "text", JStr t)]])]])]).
Proof.
  intros Hp. unfold envelope_messages.
  explicit (pyq "{'messages':[{'content':[{'text': ").
  explicit (pyq "}]}]}").
  decode_envelope 6%nat 5%nat t Hp.
Qed.

Lemma braced_wrap (p s q : pystr) :
  braced ((c_lbrace :: p) ++ s ++ q ++ [c_rbrace]).
Proof.
  exists (p ++ s ++ q). cbn [app]. now rewrite <- !app_assoc.
Qed.

Lemma classify_braced (s : pystr) (d : dict) :
  braced s -> decode s = Some (JDict d) ->
  classify s = (parsed_content <- Extractor.stage_b (JDict d) ;;
     Extractor.fields parsed_content).
Proof.
  intros Hb Hd. unfold classify, extract.
  pose proof (stage_a_padded [] [] s [] Hb eq_refl eq_refl) as H.
  cbn [app] in H. rewrite app_nil_r in H. rewrite H.
  rewrite (loads_of_decode _ _ Hd). reflexivity.
Qed.

(** X12: for every text without control characters that [json.loads]
    decodes, a response that carries the text as a JSON string in the
    completion, content, results or messages envelope is classified by
    reading the five fields from the decoded value, as lines 233-237 do;
    when that value is not an object the first [get] raises
    AttributeError. *)
Theorem every_envelope_delivers_its_inner_json (t : pystr) (v : json) :
  printable t = true ->
  decode t = Some v ->
  classify (envelope_completion t) = Extractor.fields v
  /\ classify (envelope_content t) = Extractor.fields v
  /\ classify (envelope_results t) = Extractor.fields v
  /\ classify (envelope_messages t) = Extractor.fields v
  /\ (not_dict v = true -> Extractor.fields v = inl AttributeError).
Proof.
  intros Hp Hd.
  assert (Hl : Py.loads (JStr t) = inr v) by exact (loads_of_decode _ _ Hd).
  split; [| split; [| split; [| split]]].
  - assert (Hb : braced (envelope_completion t)).
    { unfold envelope_completion. explicit (pyq "{'completion': "). explicit (pyq "}").
      apply (braced_wrap _ _ []). }
    rewrite (classify_braced _ _ Hb (decode_envelope_completion t Hp)).
    rewrite stage_b_by_shape.
    change (shape_of [(py "completion", JStr t)]) with (Completion (JStr t)).
    cbv iota. rewrite Hl. reflexivity.
  - assert (Hb : braced (envelope_content t)).
    { unfold envelope_content. explicit (pyq "{'content':[{'text': "). explicit (pyq "}]}").
      apply (braced_wrap _ _ [125; 93]). }
    rewrite (classify_braced _ _ Hb (decode_envelope_content t Hp)).
    rewrite stage_b_by_shape.
    change (shape_of [(py "content", JList [JDict [(py "text", JStr t)]])])
      with (Content [JDict [(py "text", JStr t)]]).
    cbv iota. cbn [Py.getitem0 bind Py.get].
    change (Dict.lookup [(py "text", JStr t)] (py "text"))
      with (Some (JStr t)).
    cbv iota. cbn [bind]. rewrite Hl. reflexivity.
  - assert (Hb : braced (envelope_results t)).
    { unfold envelope_results. explicit (pyq "{'results':[{'outputText': "). explicit (pyq "}]}").
      apply (braced_wrap _ _ [125; 93]). }
    rewrite (classify_braced _ _ Hb (decode_envelope_results t Hp)).
    rewrite stage_b_by_shape.
    change (shape_of
              [(py "results", JList [JDict [(py "outputText", JStr t)]])])
      with (Results [JDict [(py "outputText", JStr t)]]).
    cbv iota. cbn [Py.getitem0 bind Py.get].
    change (Dict.lookup [(py "outputText", JStr t)] (py "outputText"))
      with (Some (JStr t)).
    cbv iota. cbn [bind]. rewrite Hl. reflexivity.
  - assert (Hb : braced (envelope_messages t)).
    { unfold envelope_messages. explicit (pyq "{'messages':[{'content':[{'text': "). explicit (pyq "}]}]}").
      apply (braced_wrap _ _ [125; 93; 125; 93]). }
    rewrite (classify_braced _ _ Hb (decode_envelope_messages t Hp)).
    rewrite stage_b_by_shape.
    change (shape_of
              [(py "messages",
                JList [JDict [(py "content",
                               JList [JDict [(py "text", JStr t)]])]])])
      with (Messages [JDict [(py "content",
                             JList [JDict [(py "text", JStr t)]])]]).
    cbv iota. cbn [Py.getitem0 bind Py.get].
    change (Dict.lookup
              [(py "content", JList [JDict [(py "text", JStr t)]])]
              (py "content"))
      with (Some (JList [JDict [(py "text", JStr t)]])).
    cbv iota. cbn [Py.getitem0 bind Py.get].
    change (Dict.lookup [(py "text", JStr t)] (py "text"))
      with (Some (JStr t)).
    cbv iota. cbn [bind]. rewrite Hl. reflexivity.
  - intros Hn. destruct v; try discriminate Hn; reflexivity.
Qed.

End EnvelopeFacts.

Section CoverageRuns.

Import Driver Extractor Scripted Coverage.


Lemma non_object_line_witness :
  count_invokes
    (trace (step (start (answering sample) zero) (py "[1, 2]" ++ [10])))
  = 0%nat.
Proof.
  rewrite (non_object_line_is_reported (answering sample)
             (start (answering sample) zero) (py "[1, 2]" ++ [10])
             (JList [JInt 1; JInt 2])).
  - reflexivity.
  - vm_compute. reflexivity.
  - reflexivity.
Defined.

Lemma alert_fields_witness :
  option_map Source
    (match snd (build_alert (answering sample) zero
                  (pyq "{'Severity':'High'}" ++ [10])) with
     | inr a => Some a
     | inl _ => None
     end)
  = Some (JStr (py "Unknown")).
Proof.
  rewrite (alert_fields_and_defaults (answering sample) zero
             (pyq "{'Severity':'High'}" ++ [10])
             [(py "Severity", JStr (py "High"))]).
  - vm_compute. reflexivity.
  - vm_compute. reflexivity.
Defined.


Lemma get_defaults_witness :
  Extractor.stage_b (JDict [(py "content", JList [JDict []])])
  = inl JSONDecodeError.
Proof.
  apply (get_defaults_end_in_decode_error
           [(py "content", JList [JDict []])] [] []).
  left. split; vm_compute; reflexivity.
Defined.

Lemma adapter_branch_witness :
  Adapter.build_body Spec.default_model (py "p")
  = Adapter.build_body (py "us.amazon.nova-lite") (py "p").
Proof.
  apply (adapter_branch_is_decided_by_the_prefix
           Spec.default_model (py "us.amazon.nova-lite") (py "p")).
  - cbn. do 4 right. left. reflexivity.
  - vm_compute. reflexivity.
Defined.


Lemma other_action_types_witness :
  let a := {| AlertID := py "ALERT-1"; Severity := JStr (py "High");
              Source := JStr (py "IDS"); Message := JStr (py "Port scan");
              ReceivedAt := py "now" |} in
  subject_of (answering sample) a Spec.unknown_defaults
  = py "[UASO Alert - Action Unknown] "
    ++ py_str (answering sample) (Severity a) ++ py " - "
    ++ py_str (answering sample) (Source a).
Proof.
  intros a.
  apply (proj1 (other_action_types_are_published_as_unknown
                  (answering sample) a Spec.unknown_defaults eq_refl)).
Defined.

Lemma every_envelope_witness :
  classify (Spec.envelope_messages sample) = inr sample_record.
Proof.
  edestruct (every_envelope_delivers_its_inner_json sample)
    as (_ & _ & _ & H & _).
  - vm_compute. reflexivity.
  - reflexivity.
  - rewrite H. vm_compute. reflexivity.
Defined.

End CoverageRuns.
